(** * A shallow embedding of the frost-dkg participant state machine

    The development follows [src/participant.rs], [src/participant/round1.rs],
    [src/participant/round2.rs], [src/participant/round3.rs] and [src/data.rs].

    Modelling choices.
    - The scalar field [G::Scalar] is Z modulo the group order [order];
      scalars are the canonical representatives in [0, order).
    - The prime-order group [G] is written additively through its discrete
      logarithms: a point is a Z modulo [order], [G * s] is a product modulo
      [order], the identity is 0.  Every prime-order group is isomorphic to this
      one, and the code only uses the group operations, equality and encodings.
    - The collaborators the code is generic over (hash_to_scalar, canonical
      encodings, the merlin challenge, Feldman splitting of vsss_rs, the
      postcard codec) are fields of a [Backend] record; theorems quantify over
      every backend unless they need a concrete one.
    - [BTreeMap<usize, V>] is an association list sorted by key, so that
      [values()] and [iter()] visit the entries in ascending key order.
    - A Rust function that may panic returns an [outcome]; a [&mut self]
      method returns the state after the call together with its [DkgResult]. *)

From Stdlib Require Import String ZArith List Bool Lia Znumtheory.
From Stdlib Require Import ZmodInv Setoid Morphisms.
Import ListNotations.

Open Scope Z_scope.

(** ** Rust plumbing *)

Inductive outcome (A : Type) : Type :=
| Ret (a : A)
| Panic.
Arguments Ret {A} a.
Arguments Panic {A}.

Definition obind {A B} (m : outcome A) (f : A -> outcome B) : outcome B :=
  match m with Ret a => f a | Panic => Panic end.

Notation "x <- m ;; k" := (obind m (fun x => k))
  (at level 61, m at next level, right associativity).

(** [src/error.rs] *)
Inductive Error : Type :=
| FmtError
| IoError
| VsssError
| PostcardError
| InitializationError (msg : string)
| RoundError (msg : string).

Definition is_round_error (e : Error) : bool :=
  match e with RoundError _ => true | _ => false end.

Inductive DkgResult (A : Type) : Type :=
| Ok (a : A)
| Err (e : Error).
Arguments Ok {A} a.
Arguments Err {A} e.

(** Writing [v[i] = x] into a [Vec]: out of range panics. *)
Fixpoint vec_set {A} (v : list A) (i : nat) (x : A) : outcome (list A) :=
  match v, i with
  | [], _ => Panic
  | _ :: v', O => Ret (x :: v')
  | y :: v', S i' => r <- vec_set v' i' x ;; Ret (y :: r)
  end.

(** Reading [v[i]]: out of range panics. *)
Definition vec_get {A} (v : list A) (i : nat) : outcome A :=
  match nth_error v i with Some x => Ret x | None => Panic end.

(** ** [BTreeMap<usize, V>] *)
Module BTreeMap.
Definition t (V : Type) := list (nat * V).

Definition new {V} : t V := [].

Fixpoint get {V} (k : nat) (m : t V) : option V :=
  match m with
  | [] => None
  | (k', v) :: m' => if Nat.eqb k k' then Some v else get k m'
  end.

Definition contains_key {V} (k : nat) (m : t V) : bool :=
  match get k m with Some _ => true | None => false end.

Fixpoint insert {V} (k : nat) (v : V) (m : t V) : t V :=
  match m with
  | [] => [(k, v)]
  | (k', v') :: m' =>
      if Nat.ltb k k' then (k, v) :: m
      else if Nat.eqb k k' then (k, v) :: m'
      else (k', v') :: insert k v m'
  end.

(** [map[&k]]: a missing key panics. *)
Definition index {V} (m : t V) (k : nat) : outcome V :=
  match get k m with Some v => Ret v | None => Panic end.

Definition values {V} (m : t V) : list V := map snd m.
Definition keys {V} (m : t V) : list nat := map fst m.
Definition len {V} (m : t V) : nat := length m.
End BTreeMap.

(** ** Bytes *)

Definition byte_of_Z (z : Z) : Byte.byte :=
  match Byte.of_N (Z.to_N (z mod 256)) with Some b => b | None => Byte.x00 end.

(** [(n as u16).to_be_bytes()] *)
Definition u16_be (n : nat) : list Byte.byte :=
  let z := Z.of_nat n mod 65536 in
  [byte_of_Z (z / 256); byte_of_Z z].

(** Equality of byte arrays. *)
Fixpoint bytes_eqb (a b : list Byte.byte) : bool :=
  match a, b with
  | [], [] => true
  | x :: a', y :: b' => Byte.eqb x y && bytes_eqb a' b'
  | _, _ => false
  end.

(** [n.to_le_bytes()] for a [u64], as merlin's [append_u64] absorbs it. *)
Fixpoint le_bytes (w : nat) (z : Z) : list Byte.byte :=
  match w with
  | O => []
  | S w' => byte_of_Z z :: le_bytes w' (z / 256)
  end.

(** ** Data model, [src/data.rs] *)

Inductive Round : Type := One | Two | Three | Four.

Definition round_to_nat (r : Round) : nat :=
  match r with One => 1 | Two => 2 | Three => 3 | Four => 4 end.

(** The derived [PartialOrd] on [Round]: [a > b]. *)
Definition round_gt (a b : Round) : bool := Nat.ltb (round_to_nat b) (round_to_nat a).

Definition round_eqb (a b : Round) : bool := Nat.eqb (round_to_nat a) (round_to_nat b).

(** [impl TryFrom<u8> for Round] *)
Definition round_try_from (b : Byte.byte) : DkgResult Round :=
  match Byte.to_N b with
  | 1%N => Ok One
  | 2%N => Ok Two
  | 3%N => Ok Three
  | 4%N => Ok Four
  | _ => Err (InitializationError "Invalid round")
  end.

Inductive ParticipantType : Type := Secret | Refresh.

(** [impl From<ParticipantType> for u16] *)
Definition participant_type_to_nat (t : ParticipantType) : nat :=
  match t with Secret => 1 | Refresh => 2 end.

(** [DefaultShare<IdentifierPrimeField<F>, IdentifierPrimeField<F>>] *)
Record Share : Type := mkShare { identifier : Z; value : Z }.

(** [SecretShare::<F>::default()]: identifier and value are [F::ZERO]. *)
Definition default_share : Share := mkShare 0 0.

Record Signature : Type := mkSignature { sig_r : Z; sig_s : Z }.

Record Round1Data : Type := mkRound1Data {
  r1_sender_ordinal : nat;
  r1_sender_id : Z;
  r1_sender_type : ParticipantType;
  r1_feldman_commitments : list Z;
  r1_signature : Signature
}.

Record Round2Data : Type := mkRound2Data {
  r2_sender_ordinal : nat;
  r2_sender_id : Z;
  r2_sender_type : ParticipantType;
  r2_secret_share : Share;
  r2_transcript_hash : list Byte.byte
}.

(** [ParticipantIdGeneratorType]: the id rule handed to vsss_rs. *)
Inductive ParticipantIdGeneratorType : Type :=
| Sequential (start increment : Z) (count : nat)
| IdList (ids : list Z).

(** [src/parameters.rs] *)
Record Parameters : Type := mkParameters {
  p_threshold : nat;
  p_limit : nat;
  p_message_generator : Z;
  p_participant_number_generators : list ParticipantIdGeneratorType
}.

(** A merlin transcript, as the sequence of labelled messages it absorbed. *)
Definition Transcript := list (string * list Byte.byte).

(** ** Collaborators the code is generic over *)
Record Backend : Type := mkBackend {
  (** order of [G] and characteristic of [G::Scalar] *)
  order : Z;
  (** [ScalarHash::hash_to_scalar] *)
  hash_to_scalar : list Byte.byte -> Z;
  (** [PrimeField::to_repr] *)
  scalar_to_repr : Z -> list Byte.byte;
  (** [GroupEncoding::to_bytes] *)
  point_to_bytes : Z -> list Byte.byte;
  (** [Transcript::challenge_bytes] into a 32-byte buffer *)
  challenge_bytes : Transcript -> string -> list Byte.byte;
  (** [feldman::split_secret_with_participant_generator] (with its rng):
      threshold, limit, secret, generator, id rules. *)
  split_secret : nat -> nat -> Z -> Z -> list ParticipantIdGeneratorType ->
                 DkgResult (list Share * list Z);
  (** [postcard::from_bytes] for the two payloads *)
  decode_round1 : list Byte.byte -> DkgResult Round1Data;
  decode_round2 : list Byte.byte -> DkgResult Round2Data
}.

Section Participant.

Variable B : Backend.

Local Abbreviation p := (order B).

(** *** [G::Scalar], a prime field of order [p] *)
Definition fadd (a b : Z) : Z := (a + b) mod p.
Definition fsub (a b : Z) : Z := (a - b) mod p.
Definition fmul (a b : Z) : Z := (a * b) mod p.
Definition feq (a b : Z) : bool := Z.eqb (a mod p) (b mod p).
Definition fis_zero (a : Z) : bool := Z.eqb (a mod p) 0.

(** [Field::invert]: fails on zero, otherwise the Fermat power [x^(p-2)]. *)
Definition finv (x : Z) : option Z :=
  if fis_zero x then None else Some ((x mod p) ^ (p - 2) mod p).

(** *** [G], in discrete-logarithm coordinates *)
Definition gidentity : Z := 0.
Definition gadd (a b : Z) : Z := (a + b) mod p.
Definition gsub (a b : Z) : Z := (a - b) mod p.
(** [point * scalar] *)
Definition gmul (g s : Z) : Z := (g * s) mod p.
Definition geq (a b : Z) : bool := Z.eqb (a mod p) (b mod p).
Definition gis_identity (g : Z) : bool := Z.eqb (g mod p) 0.

(** [SumOfProducts::sum_of_products] *)
Definition sum_of_products (input : list (Z * Z)) : Z :=
  fold_left (fun acc '(s, g) => gadd acc (gmul g s)) input gidentity.

(** *** [ParticipantImpl] for [SecretParticipantImpl] and [RefreshParticipantImpl] *)

(** [random_value], given the rng's draw [rnd] *)
Definition random_value (ty : ParticipantType) (rnd : Z) : Z :=
  match ty with Secret => rnd mod p | Refresh => 0 end.

Definition check_feldman_verifier (ty : ParticipantType) (verifier : Z) : bool :=
  match ty with
  | Secret => negb (gis_identity verifier)
  | Refresh => gis_identity verifier
  end.

(** *** The participant, [struct Participant<I, G>]; [participant_impl]
    records which [ParticipantImpl] [I] is. *)
Record Participant : Type := mkParticipant {
  ordinal : nat;
  id : Z;
  threshold : nat;
  limit : nat;
  round : Round;
  completed : bool;
  secret_shares : BTreeMap.t Share;
  feldman_verifiers : list Z;
  secret_share : Share;
  message_generator : Z;
  public_key : Z;
  powers_of_i : list Z;
  received_round1_data : BTreeMap.t Round1Data;
  received_round2_data : BTreeMap.t Round2Data;
  all_participant_ids : BTreeMap.t Z;
  valid_participant_ids : BTreeMap.t Z;
  participant_impl : ParticipantType
}.

(** [vec![ONE; t]; powers_of_i[1] = id; for i in 2..t { ... }] *)
Definition powers_loop (id : Z) (t : nat) (v : list Z) : outcome (list Z) :=
  fold_left
    (fun acc i => v <- acc ;; prev <- vec_get v (i - 1) ;; vec_set v i (fmul prev id))
    (seq 2 (t - 2)) (Ret v).

Definition compute_powers_of_i (id : Z) (t : nat) : outcome (list Z) :=
  v <- vec_set (repeat 1 t) 1 id ;; powers_loop id t v.

(** [shares.iter().position(|s| s.identifier == id)] *)
Fixpoint position_of (id : Z) (shares : list Share) : option nat :=
  match shares with
  | [] => None
  | s :: rest =>
      if feq (identifier s) id then Some O
      else option_map S (position_of id rest)
  end.

(** [iter().enumerate().map(...).collect()] into a [BTreeMap] *)
Definition enumerate_map {A V} (f : A -> V) (l : list A) : BTreeMap.t V :=
  combine (seq 0 (length l)) (map f l).

(** [verifiers.iter().skip(1).any(is_identity) || !I::check_feldman_verifier(verifiers[0])] *)
Definition invalid_verifiers (ty : ParticipantType) (verifiers : list Z) : outcome bool :=
  if existsb gis_identity (tl verifiers) then Ret true
  else v0 <- vec_get verifiers 0 ;; Ret (negb (check_feldman_verifier ty v0)).

(** [Participant::initialize] *)
Definition initialize (id : Z) (parameters : Parameters) (secret : Z)
    (ty : ParticipantType) : outcome (DkgResult Participant) :=
  let t := p_threshold parameters in
  let n := p_limit parameters in
  let h := p_message_generator parameters in
  if Nat.ltb n t then Ret (Err (InitializationError "Threshold greater than limit"))
  else if Nat.ltb t 1 then Ret (Err (InitializationError "Threshold less than 1"))
  else if gis_identity h then Ret (Err (InitializationError "Invalid message generator"))
  else
    powers_of_i <- compute_powers_of_i id t ;;
    match split_secret B t n secret h (p_participant_number_generators parameters) with
    | Err e => Ret (Err e)
    | Ok (shares, verifiers) =>
        bad <- invalid_verifiers ty verifiers ;;
        if bad then Ret (Err (InitializationError "Invalid feldman verifier"))
        else
          match position_of id shares with
          | None => Ret (Err (InitializationError "Invalid participant id"))
          | Some ordinal =>
              Ret (Ok {|
                ordinal := ordinal;
                id := id;
                threshold := t;
                limit := n;
                round := One;
                completed := false;
                secret_shares := enumerate_map (fun s => s) shares;
                feldman_verifiers := verifiers;
                secret_share := default_share;
                message_generator := h;
                public_key := gidentity;
                powers_of_i := powers_of_i;
                received_round1_data := BTreeMap.new;
                received_round2_data := BTreeMap.new;
                all_participant_ids := enumerate_map identifier shares;
                valid_participant_ids := BTreeMap.new;
                participant_impl := ty |})
          end
    end.

(** [Participant::new], with the rng's draw [rnd] *)
Definition new (ty : ParticipantType) (id : Z) (parameters : Parameters) (rnd : Z)
    : outcome (DkgResult Participant) :=
  initialize id parameters (random_value ty rnd) ty.

(** [Participant::lagrange] *)
Definition lagrange (share : Share) (shares_ids : list Z) : outcome Z :=
  let '(num, den) :=
    fold_left
      (fun '(num, den) x_j =>
         if feq x_j (identifier share) then (num, den)
         else (fmul num x_j, fmul den (fsub x_j (identifier share))))
      shares_ids (1, 1) in
  match finv den with
  | None => Panic  (* expect("Denominator should not be zero") *)
  | Some den_inv => Ret (fmul num den_inv)
  end.

(** [Participant::<SecretParticipantImpl<G>, G>::with_secret] *)
Definition with_secret (new_identifier : Z) (old_share : Share) (parameters : Parameters)
    (shares_ids : list Z) : outcome (DkgResult Participant) :=
  l <- lagrange old_share shares_ids ;;
  initialize new_identifier parameters (fmul (value old_share) l) Secret.


(** *** Output generators, [src/data.rs] *)
Record Round1OutputGenerator : Type := mkRound1OutputGenerator {
  r1o_participant_ids : BTreeMap.t Z;
  r1o_sender_type : ParticipantType;
  r1o_sender_ordinal : nat;
  r1o_sender_id : Z;
  r1o_feldman_commitments : list Z;
  r1o_signature : Signature
}.

Record Round2OutputGenerator : Type := mkRound2OutputGenerator {
  r2o_participant_ids : BTreeMap.t Z;
  r2o_sender_ordinal : nat;
  r2o_sender_id : Z;
  r2o_sender_type : ParticipantType;
  r2o_secret_shares : BTreeMap.t Share;
  r2o_transcript_hash : list Byte.byte
}.

Inductive RoundOutputGenerator : Type :=
| Round1Out (g : Round1OutputGenerator)
| Round2Out (g : Round2OutputGenerator)
| Round3Out.

(** The payload of a [ParticipantRoundOutput]; on the wire it is the round tag
    followed by the postcard encoding of this record. *)
Inductive Payload : Type :=
| Payload1 (d : Round1Data)
| Payload2 (d : Round2Data).

Record ParticipantRoundOutput : Type := mkParticipantRoundOutput {
  dst_ordinal : nat;
  dst_id : Z;
  data : Payload
}.

Definition round2_output (g : Round2OutputGenerator) (index : nat) (id : Z)
    : outcome ParticipantRoundOutput :=
  (* debug_assert_eq!(data.secret_shares[index].identifier, id) is compiled
     out of release builds; data.secret_shares[index] panics on a missing key. *)
  share <- BTreeMap.index (r2o_secret_shares g) index ;;
  Ret (mkParticipantRoundOutput index id
         (Payload2 (mkRound2Data (r2o_sender_ordinal g) (r2o_sender_id g)
                      (r2o_sender_type g) share (r2o_transcript_hash g)))).

(** [RoundOutputGenerator::iter], collected *)
Definition iter (gen : RoundOutputGenerator) : outcome (list ParticipantRoundOutput) :=
  match gen with
  | Round1Out g =>
      let payload := mkRound1Data (r1o_sender_ordinal g) (r1o_sender_id g)
                       (r1o_sender_type g) (r1o_feldman_commitments g) (r1o_signature g) in
      Ret (flat_map
             (fun '(index, id) =>
                if Nat.eqb index (r1o_sender_ordinal g) then []
                else [mkParticipantRoundOutput index id (Payload1 payload)])
             (r1o_participant_ids g))
  | Round2Out g =>
      fold_right
        (fun '(index, id) rest =>
           if Nat.eqb index (r2o_sender_ordinal g) then rest
           else o <- round2_output g index id ;; l <- rest ;; Ret (o :: l))
        (Ret []) (r2o_participant_ids g)
  | Round3Out => Ret []
  end.

(** *** Field updates of the participant *)
Definition set_round1 (st : Participant) (r1 : BTreeMap.t Round1Data) (r : Round)
    : Participant :=
  {| ordinal := ordinal st; id := id st; threshold := threshold st; limit := limit st;
     round := r; completed := completed st; secret_shares := secret_shares st;
     feldman_verifiers := feldman_verifiers st; secret_share := secret_share st;
     message_generator := message_generator st; public_key := public_key st;
     powers_of_i := powers_of_i st; received_round1_data := r1;
     received_round2_data := received_round2_data st;
     all_participant_ids := all_participant_ids st;
     valid_participant_ids := valid_participant_ids st;
     participant_impl := participant_impl st |}.

Definition set_round2 (st : Participant) (r2 : BTreeMap.t Round2Data) (r : Round)
    : Participant :=
  {| ordinal := ordinal st; id := id st; threshold := threshold st; limit := limit st;
     round := r; completed := completed st; secret_shares := secret_shares st;
     feldman_verifiers := feldman_verifiers st; secret_share := secret_share st;
     message_generator := message_generator st; public_key := public_key st;
     powers_of_i := powers_of_i st; received_round1_data := received_round1_data st;
     received_round2_data := r2;
     all_participant_ids := all_participant_ids st;
     valid_participant_ids := valid_participant_ids st;
     participant_impl := participant_impl st |}.

Definition set_completed (st : Participant) (pk : Z) (share : Share) : Participant :=
  {| ordinal := ordinal st; id := id st; threshold := threshold st; limit := limit st;
     round := Four; completed := true; secret_shares := secret_shares st;
     feldman_verifiers := feldman_verifiers st; secret_share := share;
     message_generator := message_generator st; public_key := pk;
     powers_of_i := powers_of_i st; received_round1_data := received_round1_data st;
     received_round2_data := received_round2_data st;
     all_participant_ids := all_participant_ids st;
     valid_participant_ids := valid_participant_ids st;
     participant_impl := participant_impl st |}.

(** *** Round 1, [src/participant/round1.rs] *)

Definition bytes_for_schnorr (st : Participant) (ordinal : nat) (id : Z)
    (participant_type : ParticipantType) (feldman_verifiers : list Z) (r_i : Z)
    : list Byte.byte :=
  scalar_to_repr B id
  ++ u16_be ordinal
  ++ u16_be (participant_type_to_nat participant_type)
  ++ u16_be (threshold st)
  ++ u16_be (limit st)
  ++ point_to_bytes B (message_generator st)
  ++ concat (map (scalar_to_repr B) (BTreeMap.values (all_participant_ids st)))
  ++ point_to_bytes B r_i
  ++ concat (map (point_to_bytes B) feldman_verifiers).

Definition compute_signature (st : Participant) (k r_i : Z) : Signature :=
  let bytes := bytes_for_schnorr st (ordinal st) (id st) (participant_impl st)
                 (feldman_verifiers st) r_i in
  let challenge := hash_to_scalar B bytes in
  let s := fadd k (fmul challenge (value (secret_share st))) in
  mkSignature r_i s.

Definition verify_signature (st : Participant) (d : Round1Data) : outcome (DkgResult unit) :=
  let bytes := bytes_for_schnorr st (r1_sender_ordinal d) (r1_sender_id d)
                 (r1_sender_type d) (r1_feldman_commitments d) (sig_r (r1_signature d)) in
  let challenge := hash_to_scalar B bytes in
  c0 <- vec_get (r1_feldman_commitments d) 0 ;;
  let computed_r := gsub (gmul (message_generator st) (sig_s (r1_signature d)))
                         (gmul c0 challenge) in
  if negb (geq (sig_r (r1_signature d)) computed_r)
  then Ret (Err (RoundError "Round 1: Received invalid round1 signature"))
  else Ret (Ok tt).

(** [round1], with the rng's draw [rnd] for the nonce *)
Definition round1 (st : Participant) (rnd : Z) : Participant * DkgResult RoundOutputGenerator :=
  let k := random_value (participant_impl st) rnd in
  let r_i := gmul (message_generator st) k in
  let signature := compute_signature st k r_i in
  let self_round1_data :=
    mkRound1Data (ordinal st) (id st) (participant_impl st) [] signature in
  let st' := set_round1 st
               (BTreeMap.insert (ordinal st) self_round1_data (received_round1_data st)) Two in
  (st', Ok (Round1Out (mkRound1OutputGenerator (all_participant_ids st) (participant_impl st)
                         (ordinal st) (id st) (feldman_verifiers st) signature))).

Definition check_sending_participant_id (st : Participant) (sender_ordinal : nat)
    (sender_id : Z) : DkgResult unit :=
  match BTreeMap.get sender_ordinal (all_participant_ids st) with
  | None => Err (RoundError "Unknown sender ordinal")
  | Some id' =>
      if negb (feq id' sender_id) then Err (RoundError "Sender id mismatch")
      else if fis_zero sender_id then Err (RoundError "Sender id is zero")
      else if feq (id st) sender_id then Err (RoundError "Sender id is equal to our id")
      else Ok tt
  end.

Definition receive_round1data (st : Participant) (d : Round1Data)
    : outcome (Participant * DkgResult unit) :=
  if round_gt (round st) Two then
    Ret (st, Err (RoundError "Round 1: Invalid round payload received"))
  else if BTreeMap.contains_key (r1_sender_ordinal d) (received_round1_data st) then
    Ret (st, Err (RoundError "Round: 1, Sender has already sent data"))
  else
    match check_sending_participant_id st (r1_sender_ordinal d) (r1_sender_id d) with
    | Err e => Ret (st, Err e)
    | Ok _ =>
        match r1_feldman_commitments d with
        | [] => Ret (st, Err (RoundError "Round: 1, Feldman commitments are empty"))
        | c0 :: rest =>
            if negb (Nat.eqb (length (r1_feldman_commitments d)) (threshold st)) then
              Ret (st, Err (RoundError "Round: 1, Feldman commitments length is not equal to threshold"))
            else if existsb gis_identity rest then
              Ret (st, Err (RoundError "Round: 1, Feldman commitments contain the identity point"))
            else if negb (check_feldman_verifier (r1_sender_type d) c0) then
              Ret (st, Err (RoundError "Round: 1, Feldman commitment is not a valid verifier"))
            else
              v <- verify_signature st d ;;
              match v with
              | Err e => Ret (st, Err e)
              | Ok _ =>
                  Ret (set_round1 st
                         (BTreeMap.insert (r1_sender_ordinal d) d (received_round1_data st))
                         (round st), Ok tt)
              end
        end
    end.

(** *** Round 2, [src/participant/round2.rs] and the transcript of [src/data.rs] *)

Definition transcript_new (label : string) : Transcript :=
  [("dom-sep"%string, list_byte_of_string label)].

Definition append_message (tr : Transcript) (label : string) (msg : list Byte.byte)
    : Transcript :=
  tr ++ [(label, msg)].

Definition append_u64 (tr : Transcript) (label : string) (x : nat) : Transcript :=
  append_message tr label (le_bytes 8 (Z.of_nat x)).

(** [Round1Data::add_to_transcript] *)
Definition add_to_transcript (d : Round1Data) (tr : Transcript) : Transcript :=
  let tr := append_message tr "sender_ordinal" (u16_be (r1_sender_ordinal d)) in
  let tr := append_message tr "sender_id" (scalar_to_repr B (r1_sender_id d)) in
  let tr := append_message tr "sender_type"
              (u16_be (participant_type_to_nat (r1_sender_type d))) in
  let tr := append_message tr "signature.r" (point_to_bytes B (sig_r (r1_signature d))) in
  let tr := append_message tr "signature.s" (scalar_to_repr B (sig_s (r1_signature d))) in
  let tr := append_message tr "feldman_commitments.len()"
              (u16_be (length (r1_feldman_commitments d))) in
  fold_left
    (fun tr '(i, commitment) =>
       let tr := append_u64 tr "feldman_commitments_index" i in
       append_message tr "feldman_commitment" (point_to_bytes B commitment))
    (combine (seq 0 (length (r1_feldman_commitments d))) (r1_feldman_commitments d))
    tr.

(** The transcript [round2] builds over [received_round1_data]. *)
Definition round2_transcript (st : Participant) : Transcript :=
  fold_left (fun tr d => add_to_transcript d tr)
    (BTreeMap.values (received_round1_data st))
    (transcript_new "Frost DKG - Round 2 Transcript").

Definition round2_transcript_hash (st : Participant) : list Byte.byte :=
  challenge_bytes B (round2_transcript st) "round 2 result".

(** The local [valid_participant_ids] map [round2] builds. *)
Definition round2_valid_ids (st : Participant) : BTreeMap.t Z :=
  fold_left (fun m d => BTreeMap.insert (r1_sender_ordinal d) (r1_sender_id d) m)
    (BTreeMap.values (received_round1_data st)) BTreeMap.new.

Definition round2_ready (st : Participant) : bool :=
  round_eqb (round st) Two && Nat.leb (threshold st) (BTreeMap.len (received_round1_data st)).

Definition round2 (st : Participant) : Participant * DkgResult RoundOutputGenerator :=
  if negb (round2_ready st) then (st, Err (RoundError "Round 2 is not ready"))
  else
    let valid_participant_ids := round2_valid_ids st in
    let transcript_hash := round2_transcript_hash st in
    let st' := set_round2 st
                 (BTreeMap.insert (ordinal st)
                    (mkRound2Data (ordinal st) (id st) (participant_impl st)
                       (secret_share st) transcript_hash)
                    (received_round2_data st)) Three in
    (st', Ok (Round2Out (mkRound2OutputGenerator valid_participant_ids (ordinal st) (id st)
                           (participant_impl st) (secret_shares st) transcript_hash))).

Definition receive_round2data (st : Participant) (d : Round2Data)
    : outcome (Participant * DkgResult unit) :=
  if round_gt (round st) Three then
    Ret (st, Err (RoundError "Round 2: Invalid round payload received"))
  else
    match check_sending_participant_id st (r2_sender_ordinal d) (r2_sender_id d) with
    | Err e => Ret (st, Err e)
    | Ok _ =>
    if negb (BTreeMap.contains_key (r2_sender_ordinal d) (valid_participant_ids st)) then
      Ret (st, Err (RoundError "Round 2: Not a valid participant"))
    else if BTreeMap.contains_key (r2_sender_ordinal d) (received_round2_data st) then
      Ret (st, Err (RoundError "Round 2: Sender has already sent data"))
    else
    match BTreeMap.get (ordinal st) (received_round2_data st) with
    | None => Ret (st, Err (RoundError "Round 2: Self doesn't have round 2 data"))
    | Some self_data =>
    if negb (bytes_eqb (r2_transcript_hash d) (r2_transcript_hash self_data)) then
      Ret (st, Err (RoundError "Round 2: Transcript hash does not match"))
    else
    match BTreeMap.get (r2_sender_ordinal d) (received_round1_data st) with
    | None => Ret (st, Err (RoundError "Round 2: Sender has not sent round 1 data"))
    | Some round1_data =>
        let input := combine (powers_of_i st) (r1_feldman_commitments round1_data) in
        let rhs := sum_of_products input in
        let lhs := gmul (message_generator st) (value (r2_secret_share d)) in
        if negb (gis_identity (gsub lhs rhs)) then
          Ret (st, Err (RoundError "Round 3: The share does not verify with the given commitments"))
        else
          Ret (set_round2 st
                 (BTreeMap.insert (r2_sender_ordinal d) d (received_round2_data st))
                 (round st), Ok tt)
    end
    end
    end.

(** *** Round 3, [src/participant/round3.rs] *)

Definition round3_ready (st : Participant) : bool :=
  round_eqb (round st) Three && Nat.leb (threshold st) (BTreeMap.len (received_round2_data st)).

(** The loop over [received_round2_data]: [all_refresh], [public_key] and the
    value of [secret_share]. *)
Definition round3_step (st : Participant) (acc : outcome (bool * Z * Z))
    (entry : nat * Round2Data) : outcome (bool * Z * Z) :=
  let '(o, round2data) := entry in
  a <- acc ;;
  let '(all_refresh, public_key, v) := a in
  r1 <- BTreeMap.index (received_round1_data st) o ;;
  let is_refresh := match r1_sender_type r1 with Refresh => true | Secret => false end in
  c0 <- vec_get (r1_feldman_commitments r1) 0 ;;
  Ret (all_refresh && is_refresh, gadd public_key c0,
       fadd v (value (r2_secret_share round2data))).

Definition round3_loop (st : Participant) : outcome (bool * Z * Z) :=
  fold_left (round3_step st) (received_round2_data st) (Ret (true, gidentity, 0)).

Definition round3 (st : Participant)
    : outcome (Participant * DkgResult RoundOutputGenerator) :=
  if negb (round3_ready st) then Ret (st, Err (RoundError "Round 3 is not ready"))
  else
    og_secret <- BTreeMap.index (secret_shares st) (ordinal st) ;;
    a <- round3_loop st ;;
    let '(all_refresh, public_key, v) := a in
    let public_key_identity := gis_identity public_key in
    if (all_refresh && negb public_key_identity) || (negb all_refresh && public_key_identity)
    then Ret (st, Err (RoundError "Round 3: The resulting public key is invalid"))
    else if feq v (value og_secret)
    then Ret (st, Err (RoundError "Round 3: The resulting secret key share is invalid"))
    else Ret (set_completed st public_key (mkShare (id st) v), Ok Round3Out).

(** *** [Participant::run] and [Participant::receive] *)

Definition run (st : Participant) (rnd : Z)
    : outcome (Participant * DkgResult RoundOutputGenerator) :=
  match round st with
  | One => Ret (round1 st rnd)
  | Two => Ret (round2 st)
  | Three => round3 st
  | Four => Ret (st, Err (RoundError "Protocol is complete"))
  end.

Definition receive (st : Participant) (bytes : list Byte.byte)
    : outcome (Participant * DkgResult unit) :=
  (* data[0] *)
  b0 <- vec_get bytes 0 ;;
  let rest := skipn 1 bytes in
  match round_try_from b0 with
  | Err e => Ret (st, Err e)
  | Ok One =>
      match decode_round1 B rest with
      | Err e => Ret (st, Err e)
      | Ok d => receive_round1data st d
      end
  | Ok Two =>
      match decode_round2 B rest with
      | Err e => Ret (st, Err e)
      | Ok d => receive_round2data st d
      end
  | Ok _ => Ret (st, Err (RoundError "Protocol is complete"))
  end.

(** Delivering a structured payload, as [receive] does after decoding it. *)
Definition deliver (st : Participant) (pl : Payload) : outcome (Participant * DkgResult unit) :=
  match pl with
  | Payload1 d => receive_round1data st d
  | Payload2 d => receive_round2data st d
  end.

End Participant.

(** ** The host loop of the crate's tests ([next_round] and [receive] of
    [src/lib.rs] and [tests/happy_path.rs]): participant [i] sits at
    position [i] of the list, every generator is run and every output is
    delivered to the participant at its [dst_ordinal]. *)
Section Host.

Variable B : Backend.

Fixpoint replace_nth {A} (l : list A) (i : nat) (x : A) : list A :=
  match l, i with
  | [], _ => []
  | _ :: l', O => x :: l'
  | y :: l', S i' => y :: replace_nth l' i' x
  end.

(** [participant.run().unwrap()] for every participant; the nonce draw is [rnd]. *)
Fixpoint next_round (ps : list Participant) (rnd : Z)
    : option (list Participant * list RoundOutputGenerator) :=
  match ps with
  | [] => Some ([], [])
  | p :: ps' =>
      match run B p rnd, next_round ps' rnd with
      | Ret (p', Ok g), Some (qs, gs) => Some (p' :: qs, g :: gs)
      | _, _ => None
      end
  end.

(** [if let Some(participant) = participants.get_mut(ordinal) { participant.receive(..) }],
    recording each result. *)
Definition deliver_to (ps : list Participant) (o : ParticipantRoundOutput)
    : option (list Participant * list (DkgResult unit)) :=
  match nth_error ps (dst_ordinal o) with
  | None => Some (ps, [])
  | Some p =>
      match deliver B p (data o) with
      | Ret (p', r) => Some (replace_nth ps (dst_ordinal o) p', [r])
      | Panic => None
      end
  end.

Definition receive_all (ps : list Participant) (gens : list RoundOutputGenerator)
    : option (list Participant * list (DkgResult unit)) :=
  fold_left
    (fun acc g =>
       match acc, iter g with
       | Some (ps, rs), Ret outs =>
           fold_left
             (fun acc o =>
                match acc with
                | Some (ps, rs) =>
                    match deliver_to ps o with
                    | Some (ps', r) => Some (ps', rs ++ r)
                    | None => None
                    end
                | None => None
                end)
             outs (Some (ps, rs))
       | _, _ => None
       end)
    gens (Some (ps, [])).

(** One round of the host loop. *)
Definition host_round (ps : list Participant) (rnd : Z)
    : option (list Participant * list (DkgResult unit)) :=
  match next_round ps rnd with
  | Some (ps1, gens) => receive_all ps1 gens
  | None => None
  end.

End Host.

Definition is_ok {A} (r : DkgResult A) : bool := match r with Ok _ => true | Err _ => false end.

(** ** A small concrete backend: a group of order 11, one-byte encodings,
    a checksum and a Fletcher-16 sum standing in for the hash functions, and Feldman
    splitting with fixed higher coefficients 3, 5, 7, ...  The verifier set is
    laid out as vsss_rs 5's [Vec] verifier set is: the generator [H] first, then
    [H·a0, ..., H·a_{t-1}]. *)
Module Toy.

Definition p : Z := 11.

Definition byte_sum (bs : list Byte.byte) : Z :=
  fold_left (fun a b => a + Z.of_N (Byte.to_N b)) bs 0.

Definition hash (bs : list Byte.byte) : Z := byte_sum bs mod p.

Definition encode (z : Z) : list Byte.byte := [byte_of_Z (z mod p)].

Definition challenge (tr : Transcript) (label : string) : list Byte.byte :=
  let tr := tr ++ [(label, [])] in
  let '(s1, s2) :=
    fold_left (fun '(s1, s2) b => let s1 := (s1 + Z.of_N (Byte.to_N b)) mod 255 in
                                  (s1, (s2 + s1) mod 255))
      (concat (map snd tr)) (0, 0) in
  [byte_of_Z s2; byte_of_Z s1].

Definition expand_ids (g : ParticipantIdGeneratorType) : list Z :=
  match g with
  | Sequential start increment count =>
      map (fun i => (start + Z.of_nat i * increment) mod p) (seq 0 count)
  | IdList ids => ids
  end.

Fixpoint poly_eval (coeffs : list Z) (x : Z) : Z :=
  match coeffs with
  | [] => 0
  | a :: rest => (a + x * poly_eval rest x) mod p
  end.

Definition feldman_split (t n : nat) (secret h : Z) (gens : list ParticipantIdGeneratorType)
    : DkgResult (list Share * list Z) :=
  let coeffs := secret mod p :: map (fun k => Z.of_nat (2 * k + 3)) (seq 0 (t - 1)) in
  let ids := firstn n (concat (map expand_ids gens)) in
  if Nat.ltb (length ids) n then Err VsssError
  else Ok (map (fun x => mkShare x (poly_eval coeffs x)) ids,
           h :: map (fun a => (h * a) mod p) coeffs).

Definition backend : Backend :=
  {| order := p;
     hash_to_scalar := hash;
     scalar_to_repr := encode;
     point_to_bytes := encode;
     challenge_bytes := challenge;
     split_secret := feldman_split;
     decode_round1 := fun _ => Err PostcardError;
     decode_round2 := fun _ => Err PostcardError |}.

(** [Parameters::new(t, n, None, None)]: generator 1, ids 1, 2, ..., n. *)
Definition params (t n : nat) : Parameters :=
  mkParameters t n 1 [Sequential 1 1 n].

Definition make (ty : ParticipantType) (t n : nat) (secret : Z) (i : Z) : option Participant :=
  match initialize backend i (params t n) (random_value backend ty secret) ty with
  | Ret (Ok st) => Some st
  | _ => None
  end.

Fixpoint make_all (ty : ParticipantType) (t n : nat) (secret : Z) (ids : list Z)
    : option (list Participant) :=
  match ids with
  | [] => Some []
  | i :: rest =>
      match make ty t n secret i, make_all ty t n secret rest with
      | Some st, Some sts => Some (st :: sts)
      | _, _ => None
      end
  end.

End Toy.

(** ** Statements of the specification, written next to the code they are
    compared with *)
Section SpecSide.

Variable B : Backend.

Local Abbreviation p := (order B).

(** [final_share.value = Σ_{o} received_r2[o].share.value] *)
Definition spec_final_share_value (st : Participant) : Z :=
  fold_right Z.add 0
    (map (fun '(_, d) => value (r2_secret_share d)) (received_round2_data st)) mod p.

(** [received_r1[o].commitments[0]] *)
Definition first_commitment (st : Participant) (o : nat) : Z :=
  match BTreeMap.get o (received_round1_data st) with
  | Some d => hd 0 (r1_feldman_commitments d)
  | None => 0
  end.

(** [public_key = Σ_{o} received_r1[o].commitments[0]] *)
Definition spec_public_key (st : Participant) : Z :=
  fold_right Z.add 0
    (map (first_commitment st) (BTreeMap.keys (received_round2_data st))) mod p.

(** [x^{-1}], as [Field::invert] computes it (zero on failure). *)
Definition finv_val (x : Z) : Z :=
  match finv B x with Some y => y | None => 0 end.

(** [λ = Π_{x ∈ prev_ids, x ≠ i} x · (x − i)^{−1}] *)
Definition lagrange_coefficient (i : Z) (prev_ids : list Z) : Z :=
  fold_right
    (fun x acc => if feq B x i then acc else fmul B (fmul B x (finv_val (fsub B x i))) acc)
    1 prev_ids.

(** The numerator [Π_{x ≠ i} x] that [lagrange] accumulates. *)
Definition lagrange_numerator (i : Z) (prev_ids : list Z) : Z :=
  fold_right (fun x acc => if feq B x i then acc else x * acc) 1 prev_ids.

(** The denominator [Π_{x ≠ i} (x − i)] that [lagrange] inverts. *)
Definition lagrange_denominator (i : Z) (prev_ids : list Z) : Z :=
  fold_right (fun x acc => if feq B x i then acc else (x - i) * acc) 1 prev_ids.

End SpecSide.

(** ** Concrete runs on the toy backend *)

(** Two [Secret] participants, t = n = 2, ids 1 and 2, each contributing a0 = 4. *)
Definition secret_pair : option (list Participant) := Toy.make_all Secret 2 2 4 [1; 2].

Definition after_host_round (o : option (list Participant)) (rnd : Z)
    : option (list Participant * list (DkgResult unit)) :=
  match o with Some ps => host_round Toy.backend ps rnd | None => None end.

(** The secret pair after the host's first round (round 1 and its deliveries),
    as the crate's tests drive it. *)
Definition secret_pair_r1 := after_host_round secret_pair 5.

(** A participant in round Three whose round 3 succeeds. *)
Definition round3_state : Participant :=
  {| ordinal := 0; id := 1; threshold := 2; limit := 2; round := Three; completed := false;
     secret_shares := [(0%nat, mkShare 1 3); (1%nat, mkShare 2 6)];
     feldman_verifiers := [4; 3]; secret_share := default_share;
     message_generator := 1; public_key := gidentity; powers_of_i := [1; 1];
     received_round1_data :=
       [(0%nat, mkRound1Data 0 1 Secret [4; 3] (mkSignature 0 0));
        (1%nat, mkRound1Data 1 2 Secret [5; 3] (mkSignature 0 0))];
     received_round2_data :=
       [(0%nat, mkRound2Data 0 1 Secret (mkShare 1 3) []);
        (1%nat, mkRound2Data 1 2 Secret (mkShare 1 7) [])];
     all_participant_ids := [(0%nat, 1); (1%nat, 2)];
     valid_participant_ids := [(0%nat, 1); (1%nat, 2)];
     participant_impl := Secret |}.

(** The two participants of [secret_pair], as [initialize] returns them. *)
Definition secret_first : Participant :=
  match secret_pair with Some [a; _] => a | _ => round3_state end.

Definition secret_second : Participant :=
  match secret_pair with Some [_; b] => b | _ => round3_state end.

(** A Round-1 payload in the layout of the specification (section 6.2): the
    output of [round1] with the [t] commitments [H·a0, ..., H·a_{t-1}], that
    is without the generator that heads the vsss_rs verifier set.  It is the
    payload of a peer that follows the specification. *)
Definition spec_layout_round1_payload (B : Backend) (st : Participant) (rnd : Z)
    : Round1Data :=
  match snd (round1 B st rnd) with
  | Ok (Round1Out g) =>
      mkRound1Data (r1o_sender_ordinal g) (r1o_sender_id g) (r1o_sender_type g)
        (tl (r1o_feldman_commitments g)) (r1o_signature g)
  | _ => mkRound1Data 0 0 Secret [] (mkSignature 0 0)
  end.

(** Round 1 of each participant, with the nonces 5 and 3: for these the
    challenge of the spec-layout payload is 0, so its response [s = k] is
    also the specification's [k + c·a0]. *)
Definition secret_first_r1 : Participant := fst (round1 Toy.backend secret_first 5).

Definition secret_second_r1 : Participant := fst (round1 Toy.backend secret_second 3).

Definition secret_first_payload : Round1Data :=
  spec_layout_round1_payload Toy.backend secret_first 5.

Definition secret_second_payload : Round1Data :=
  spec_layout_round1_payload Toy.backend secret_second 3.

(** The state a delivery leaves, or [default] if it panics. *)
Definition state_after (o : outcome (Participant * DkgResult unit)) (default : Participant)
    : Participant :=
  match o with Ret (st, _) => st | Panic => default end.

(** Each participant after receiving the other's spec-layout payload. *)
Definition secret_first_r1_full : Participant :=
  state_after (deliver Toy.backend secret_first_r1 (Payload1 secret_second_payload))
    secret_first_r1.

Definition secret_second_r1_full : Participant :=
  state_after (deliver Toy.backend secret_second_r1 (Payload1 secret_first_payload))
    secret_second_r1.

(** Each participant after its round 2 (round Three). *)
Definition secret_first_r2 : Participant := fst (round2 Toy.backend secret_first_r1_full).

Definition secret_second_r2 : Participant := fst (round2 Toy.backend secret_second_r1_full).

(** ** Further parts of the crate's interface *)

(** [impl From<Round> for u8] ([src/data.rs]) *)
Definition round_to_u8 (r : Round) : Byte.byte :=
  match r with One => Byte.x01 | Two => Byte.x02 | Three => Byte.x03 | Four => Byte.x04 end.

(** [impl TryFrom<u16> for ParticipantType] ([src/data.rs]); the error is a [String]. *)
Definition participant_type_try_from (n : nat) : ParticipantType + string :=
  match n with
  | 1%nat => inl Secret
  | 2%nat => inl Refresh
  | _ => inr "Invalid participant type"%string
  end.

(** [Participant::get_secret_share] *)
Definition get_secret_share (st : Participant) : option Share :=
  if completed st then Some (secret_share st) else None.

(** [Participant::get_public_key] *)
Definition get_public_key (st : Participant) : option Z :=
  if completed st then Some (public_key st) else None.

(** The states a caller can reach: a participant built by [initialize] (which
    [new] and [with_secret] call), then driven by any sequence of [run] and
    [receive] calls that return. *)
Inductive reachable (B : Backend) : Participant -> Prop :=
| reach_initialize (i : Z) (parameters : Parameters) (secret : Z) (ty : ParticipantType)
    (st : Participant) :
    initialize B i parameters secret ty = Ret (Ok st) -> reachable B st
| reach_run (st : Participant) (rnd : Z) (st' : Participant) (r : DkgResult RoundOutputGenerator) :
    reachable B st -> run B st rnd = Ret (st', r) -> reachable B st'
| reach_receive (st : Participant) (bytes : list Byte.byte) (st' : Participant)
    (r : DkgResult unit) :
    reachable B st -> receive B st bytes = Ret (st', r) -> reachable B st'.

(** A polynomial with coefficients [a0, a1, ...] evaluated at [x] in the
    scalar field (Horner's rule). *)
Definition horner (B : Backend) (coeffs : list Z) (x : Z) : Z :=
  fold_right (fun a acc => fadd B a (fmul B x acc)) 0 coeffs.

(** Whether every ordinal of [received_round2_data] has a [Refresh] Round-1 record. *)
Definition contributors_all_refresh (st : Participant) : bool :=
  forallb (fun '(o, _) =>
             match BTreeMap.get o (received_round1_data st) with
             | Some d => match r1_sender_type d with Refresh => true | Secret => false end
             | None => false
             end)
    (received_round2_data st).

(** Congruence modulo [m]: equality in the scalar field, or of points in
    discrete-logarithm coordinates. *)
Definition cong (m a b : Z) : Prop := a mod m = b mod m.

(** ** Further concrete states on the toy backend *)

(** A participant in round One whose first Feldman verifier is the identity. *)
Definition identity_verifier_state : Participant :=
  {| ordinal := 0; id := 1; threshold := 2; limit := 2; round := One; completed := false;
     secret_shares := [(0%nat, mkShare 1 3); (1%nat, mkShare 2 6)];
     feldman_verifiers := [0; 3]; secret_share := default_share;
     message_generator := 1; public_key := gidentity; powers_of_i := [1; 1];
     received_round1_data := []; received_round2_data := [];
     all_participant_ids := [(0%nat, 1); (1%nat, 2)];
     valid_participant_ids := [];
     participant_impl := Secret |}.

(** A participant in round Three holding only its own Round-2 record, with
    [valid_participant_ids] filled in. *)
Definition round2_receiver_state : Participant :=
  {| ordinal := 0; id := 1; threshold := 2; limit := 2; round := Three; completed := false;
     secret_shares := [(0%nat, mkShare 1 3); (1%nat, mkShare 2 6)];
     feldman_verifiers := [4; 3]; secret_share := default_share;
     message_generator := 1; public_key := gidentity; powers_of_i := [1; 1];
     received_round1_data :=
       [(0%nat, mkRound1Data 0 1 Secret [4; 3] (mkSignature 0 0));
        (1%nat, mkRound1Data 1 2 Secret [5; 3] (mkSignature 0 0))];
     received_round2_data := [(0%nat, mkRound2Data 0 1 Secret (mkShare 1 3) [])];
     all_participant_ids := [(0%nat, 1); (1%nat, 2)];
     valid_participant_ids := [(0%nat, 1); (1%nat, 2)];
     participant_impl := Secret |}.

(** A Round-2 payload from ordinal 1 that [round2_receiver_state] accepts:
    [H·8 = 1·5 + 1·3]. *)
Definition round2_payload_from_second : Round2Data :=
  mkRound2Data 1 2 Secret (mkShare 1 8) [].

(** A round-3-ready participant whose own Round-1 record has no
    commitments, as [round1] stores it. *)
Definition round3_state_own_record : Participant :=
  {| ordinal := 0; id := 1; threshold := 2; limit := 2; round := Three; completed := false;
     secret_shares := [(0%nat, mkShare 1 3); (1%nat, mkShare 2 6)];
     feldman_verifiers := [4; 3]; secret_share := default_share;
     message_generator := 1; public_key := gidentity; powers_of_i := [1; 1];
     received_round1_data :=
       [(0%nat, mkRound1Data 0 1 Secret [] (mkSignature 0 0));
        (1%nat, mkRound1Data 1 2 Secret [5; 3] (mkSignature 0 0))];
     received_round2_data :=
       [(0%nat, mkRound2Data 0 1 Secret default_share []);
        (1%nat, mkRound2Data 1 2 Secret (mkShare 1 7) [])];
     all_participant_ids := [(0%nat, 1); (1%nat, 2)];
     valid_participant_ids := [(0%nat, 1); (1%nat, 2)];
     participant_impl := Secret |}.

(** The Round-2 output generator of a participant with ordinal 0 and id 1,
    t = n = 2, shares [(1, 3); (2, 6)]. *)
Definition round2_generator_example : Round2OutputGenerator :=
  mkRound2OutputGenerator [(0%nat, 1); (1%nat, 2)] 0 1 Secret
    [(0%nat, mkShare 1 3); (1%nat, mkShare 2 6)] [Byte.x07].

(** A target of a Round-2 generator that [iter] cannot serve: no share at
    its ordinal. *)
Definition round2_bad_target (g : Round2OutputGenerator) (index : nat) : Prop :=
  BTreeMap.get index (r2o_secret_shares g) = None.

(** What every state reachable through the public interface keeps. *)
Definition never_completes_inv (st : Participant) : Prop :=
  valid_participant_ids st = [] /\ completed st = false /\ (2 <= threshold st)%nat /\
  round st <> Four /\
  (round st = One \/ round st = Two -> received_round2_data st = []) /\
  (length (received_round2_data st) <= 1)%nat.

(** ** Theorems *)

(** ** C10 *)

(** C10: [receive] indexes [data[0]] before any check, so the empty slice
    panics instead of returning a [DkgResult]. *)
Theorem receive_empty_slice_panics :
  forall (B : Backend) (st : Participant), receive B st [] = Panic.
Proof. reflexivity. Qed.

(** ** C8 *)

(** C8: with threshold 1 every check of [initialize] passes, and then
    [powers_of_i[1] = id] writes past the end of [vec![ONE; 1]]: the
    constructor panics for every id, secret and participant type. *)
Theorem initialize_threshold_one_panics :
  forall (B : Backend) (i : Z) (params : Parameters) (secret : Z) (ty : ParticipantType),
    p_threshold params = 1%nat ->
    (1 <= p_limit params)%nat ->
    gis_identity B (p_message_generator params) = false ->
    initialize B i params secret ty = Panic.
Proof.
  intros B i params secret ty Ht Hn Hh.
  unfold initialize. rewrite Ht, Hh.
  destruct (Nat.ltb_spec (p_limit params) 1); [lia |].
  reflexivity.
Qed.

Lemma initialize_threshold_one_panics_witness :
  initialize Toy.backend 1 (Toy.params 1 3) 4 Secret = Panic.
Proof.
  apply initialize_threshold_one_panics; [reflexivity | simpl; lia | reflexivity].
Defined.

(** ** C6 *)

Lemma check_sending_participant_id_round_error :
  forall B st o i e,
    check_sending_participant_id B st o i = Err e -> is_round_error e = true.
Proof.
  intros B st o i e H. unfold check_sending_participant_id in H.
  destruct (BTreeMap.get o (all_participant_ids st)); [| inversion H; reflexivity].
  destruct (negb _); [inversion H; reflexivity |].
  destruct (fis_zero _ _); [inversion H; reflexivity |].
  destruct (feq _ _ _); inversion H; reflexivity.
Qed.

Ltac settle_error :=
  match goal with
  | |- _ = _ /\ is_round_error _ = true => split; [reflexivity | reflexivity]
  | _ => idtac
  end.

(** A Round-1 payload is either accepted, or rejected with a [RoundError]
    and the state returned as it was; it never panics. *)
Lemma receive_round1data_rejection :
  forall B st d,
    match receive_round1data B st d with
    | Ret (_, Ok _) => True
    | Ret (st', Err e) => st' = st /\ is_round_error e = true
    | Panic => False
    end.
Proof.
  intros B st d. unfold receive_round1data.
  destruct (round_gt (round st) Two); [settle_error |].
  destruct (BTreeMap.contains_key _ _); [settle_error |].
  destruct (check_sending_participant_id B st _ _) eqn:Hc;
    [| split; [reflexivity | eapply check_sending_participant_id_round_error; eauto]].
  destruct (r1_feldman_commitments d) as [| c0 rest] eqn:Hcs; [settle_error |].
  destruct (negb (Nat.eqb _ _)); [settle_error |].
  destruct (existsb _ rest); [settle_error |].
  destruct (negb (check_feldman_verifier _ _ _)); [settle_error |].
  unfold verify_signature. rewrite Hcs. cbn [vec_get nth_error obind].
  destruct (negb (geq _ _ _)); cbn [obind]; [settle_error | exact I].
Qed.

(** The same for a Round-2 payload. *)
Lemma receive_round2data_rejection :
  forall B st d,
    match receive_round2data B st d with
    | Ret (_, Ok _) => True
    | Ret (st', Err e) => st' = st /\ is_round_error e = true
    | Panic => False
    end.
Proof.
  intros B st d. unfold receive_round2data.
  destruct (round_gt (round st) Three); [settle_error |].
  destruct (check_sending_participant_id B st _ _) eqn:Hc;
    [| split; [reflexivity | eapply check_sending_participant_id_round_error; eauto]].
  destruct (negb (BTreeMap.contains_key _ (valid_participant_ids st))); [settle_error |].
  destruct (BTreeMap.contains_key _ (received_round2_data st)); [settle_error |].
  destruct (BTreeMap.get (ordinal st) _); [| settle_error].
  destruct (negb (bytes_eqb _ _)); [settle_error |].
  destruct (BTreeMap.get _ (received_round1_data st)); [| settle_error].
  destruct (negb (gis_identity _ _)); [settle_error | exact I].
Qed.

(** C6: every payload that fails an acceptance check of Round 1 or Round 2 is
    rejected with a [RoundError] and leaves the whole participant state as it
    was (so nothing is recorded in [received_round1_data] or
    [received_round2_data]); neither check panics, and no error returned by
    [receive] changes the state. *)
Theorem rejected_payload_leaves_state_unchanged :
  forall B : Backend,
    (forall st d,
        match receive_round1data B st d with
        | Ret (_, Ok _) => True
        | Ret (st', Err e) => st' = st /\ is_round_error e = true
        | Panic => False
        end) /\
    (forall st d,
        match receive_round2data B st d with
        | Ret (_, Ok _) => True
        | Ret (st', Err e) => st' = st /\ is_round_error e = true
        | Panic => False
        end) /\
    (forall st bytes,
        match receive B st bytes with
        | Ret (st', Err _) => st' = st
        | _ => True
        end).
Proof.
  intros B. split; [| split].
  - apply receive_round1data_rejection.
  - apply receive_round2data_rejection.
  - intros st [| b rest]; [exact I |].
    unfold receive. cbn [vec_get nth_error obind].
    destruct (round_try_from b) as [[] | e]; try reflexivity.
    + destruct (decode_round1 B (skipn 1 (b :: rest))) as [d | e]; [| reflexivity].
      pose proof (receive_round1data_rejection B st d) as H.
      destruct (receive_round1data B st d) as [[st' []] |]; tauto.
    + destruct (decode_round2 B (skipn 1 (b :: rest))) as [d | e]; [| reflexivity].
      pose proof (receive_round2data_rejection B st d) as H.
      destruct (receive_round2data B st d) as [[st' []] |]; tauto.
Qed.

(** ** The share held in [secret_share] before completion *)

(** [initialize] leaves [secret_share] at [SecretShare::default()]. *)
Lemma initialize_secret_share_default :
  forall B i params secret ty st,
    initialize B i params secret ty = Ret (Ok st) -> secret_share st = default_share.
Proof.
  intros B i params secret ty st H. unfold initialize in H.
  destruct (Nat.ltb _ _); [discriminate |].
  destruct (Nat.ltb _ _); [discriminate |].
  destruct (gis_identity _ _); [discriminate |].
  destruct (compute_powers_of_i B i _) as [pw |]; cbn [obind] in H; [| discriminate].
  destruct (split_secret B _ _ _ _ _) as [[shares verifiers] | e]; [| discriminate].
  destruct (invalid_verifiers B ty verifiers) as [[] |]; cbn [obind] in H; try discriminate.
  destruct (position_of B i shares); inversion H; reflexivity.
Qed.

(** Hence the Round-1 response of a freshly constructed participant is the
    nonce alone: [s = k], whatever [a0] is. *)
Lemma compute_signature_after_initialize :
  forall B i params secret ty st k r,
    initialize B i params secret ty = Ret (Ok st) ->
    sig_s (compute_signature B st k r) = k mod order B.
Proof.
  intros B i params secret ty st k r H.
  apply initialize_secret_share_default in H.
  unfold compute_signature, fadd, fmul. rewrite H. cbn [value default_share].
  rewrite Z.mul_0_r, Zmod_0_l, Z.add_0_r. reflexivity.
Qed.

(** [round2] never writes [valid_participant_ids]. *)
Lemma round2_keeps_valid_participant_ids :
  forall B st st' r,
    round2 B st = (st', r) -> valid_participant_ids st' = valid_participant_ids st.
Proof.
  intros B st st' r H. unfold round2 in H.
  destruct (negb (round2_ready st)); inversion H; reflexivity.
Qed.

Lemma btree_get_insert_eq {V} (k : nat) (v : V) (m : BTreeMap.t V) :
  BTreeMap.get k (BTreeMap.insert k v m) = Some v.
Proof.
  induction m as [| [k0 v0] m IH]; cbn [BTreeMap.insert BTreeMap.get];
    [rewrite Nat.eqb_refl; reflexivity |].
  destruct (Nat.ltb k k0); cbn [BTreeMap.get]; [rewrite Nat.eqb_refl; reflexivity |].
  destruct (Nat.eqb k k0) eqn:E; cbn [BTreeMap.get]; [rewrite Nat.eqb_refl; reflexivity |].
  rewrite E. exact IH.
Qed.

Lemma btree_get_insert_neq {V} (k k' : nat) (v : V) (m : BTreeMap.t V) :
  k <> k' -> BTreeMap.get k' (BTreeMap.insert k v m) = BTreeMap.get k' m.
Proof.
  intros Hne. assert (Nat.eqb k' k = false) as Hf by (apply Nat.eqb_neq; congruence).
  induction m as [| [k0 v0] m IH]; cbn [BTreeMap.insert BTreeMap.get];
    [rewrite Hf; reflexivity |].
  destruct (Nat.ltb k k0); cbn [BTreeMap.get]; [rewrite Hf; reflexivity |].
  destruct (Nat.eqb k k0) eqn:E; cbn [BTreeMap.get].
  - apply Nat.eqb_eq in E. subst k0. rewrite Hf. reflexivity.
  - destruct (Nat.eqb k' k0); [reflexivity | exact IH].
Qed.

(** ** C1 *)

(** C1: an honest [Secret] participant's Round-1 response is [s = k], not
    [k + c·a0]: with a0 = 4 and nonce 5 on the toy backend the challenge of
    the second participant's commitments [H·a0, H·a1] is c = 2.  Its
    payload, trimmed to those [t] commitments as the specification lays
    them out, fails the first participant's [verify_signature]; as emitted,
    with the generator [H] in front of them, it already fails the length
    check, so the host's first round rejects both payloads. *)
Theorem secret_round1_signature_rejected :
  match secret_pair, secret_pair_r1 with
  | Some [a; b], Some (_, results) =>
      let k := random_value Toy.backend Secret 5 in
      let '(a1, _) := round1 Toy.backend a 5 in
      let '(_, rb) := round1 Toy.backend b 5 in
      match rb with
      | Ok (Round1Out g) =>
          let c := hash_to_scalar Toy.backend
                     (bytes_for_schnorr Toy.backend b (ordinal b) (id b) Secret
                        (tl (feldman_verifiers b)) (sig_r (r1o_signature g))) in
          feldman_verifiers b = [1; gmul Toy.backend 1 4; gmul Toy.backend 1 3] /\
          c = 2 /\
          sig_s (r1o_signature g) = k /\
          sig_s (r1o_signature g) <> fadd Toy.backend k (fmul Toy.backend c 4) /\
          deliver Toy.backend a1 (Payload1 (spec_layout_round1_payload Toy.backend b 5))
          = Ret (a1, Err (RoundError "Round 1: Received invalid round1 signature")) /\
          match iter (Round1Out g) with
          | Ret [o] =>
              dst_ordinal o = 0%nat /\
              deliver Toy.backend a1 (data o)
              = Ret (a1, Err (RoundError
                   "Round: 1, Feldman commitments length is not equal to threshold"))
          | _ => False
          end /\
          results
          = [Err (RoundError "Round: 1, Feldman commitments length is not equal to threshold");
             Err (RoundError "Round: 1, Feldman commitments length is not equal to threshold")]
      | _ => False
      end
  | _, _ => False
  end.
Proof. vm_compute. repeat split; discriminate. Qed.

(** ** C2 *)

(** C2: the two [Secret] participants, each having accepted the other's
    spec-layout Round-1 payload, hold Round-1 data from the same ordinals
    {0, 1} and yet absorb different transcripts, so they compute different
    transcript hashes: each stores its own Round-1 record with no
    commitments, while the peer's copy of it carries the commitments. *)
Theorem round1_records_transcript_hashes_differ :
  deliver Toy.backend secret_first_r1 (Payload1 secret_second_payload)
    = Ret (secret_first_r1_full, Ok tt) /\
  deliver Toy.backend secret_second_r1 (Payload1 secret_first_payload)
    = Ret (secret_second_r1_full, Ok tt) /\
  BTreeMap.keys (received_round1_data secret_first_r1_full) = [0%nat; 1%nat] /\
  BTreeMap.keys (received_round1_data secret_second_r1_full) = [0%nat; 1%nat] /\
  BTreeMap.get 0 (received_round1_data secret_first_r1_full)
    = Some (mkRound1Data 0 1 Secret [] (mkSignature 5 5)) /\
  BTreeMap.get 0 (received_round1_data secret_second_r1_full)
    = Some (mkRound1Data 0 1 Secret [4; 3] (mkSignature 5 5)) /\
  round2_transcript Toy.backend secret_first_r1_full
    <> round2_transcript Toy.backend secret_second_r1_full /\
  match snd (round2 Toy.backend secret_first_r1_full),
        snd (round2 Toy.backend secret_second_r1_full) with
  | Ok (Round2Out g1), Ok (Round2Out g2) =>
      r2o_transcript_hash g1 = round2_transcript_hash Toy.backend secret_first_r1_full /\
      r2o_transcript_hash g2 = round2_transcript_hash Toy.backend secret_second_r1_full /\
      r2o_transcript_hash g1 <> r2o_transcript_hash g2
  | _, _ => False
  end.
Proof. vm_compute. repeat split; discriminate. Qed.

(** ** C3 *)

(** C3: after both participants run round 2, [valid_participant_ids] is
    still empty although [round2] built the map {0 ↦ 1, 1 ↦ 2}; the peer's
    Round-2 payload is then rejected as "Not a valid participant". *)
Theorem round2_valid_ids_not_stored :
  round secret_first_r2 = Three /\ round secret_second_r2 = Three /\
  round2_valid_ids secret_first_r1_full = [(0%nat, 1); (1%nat, 2)] /\
  valid_participant_ids secret_first_r2 = [] /\
  valid_participant_ids secret_second_r2 = [] /\
  match snd (round2 Toy.backend secret_second_r1_full) with
  | Ok g =>
      match iter g with
      | Ret [o] =>
          dst_ordinal o = 0%nat /\
          deliver Toy.backend secret_first_r2 (data o)
          = Ret (secret_first_r2, Err (RoundError "Round 2: Not a valid participant"))
      | _ => False
      end
  | Err _ => False
  end.
Proof. vm_compute. repeat split. Qed.

(** ** C4 *)

(** C4: the participant's own Round-2 record carries [secret_share], still
    [SecretShare::default()], instead of [secret_shares[ordinal]]; the
    output generator does emit [secret_shares[1]] and the transcript hash
    to the peer. *)
Theorem round2_self_record_default_share :
  let '(a2, r) := round2 Toy.backend secret_first_r1_full in
  option_map r2_secret_share (BTreeMap.get 0 (received_round2_data a2))
    = Some default_share /\
  BTreeMap.get 0 (secret_shares secret_first_r1_full) = Some (mkShare 1 7) /\
  match r with
  | Ok g =>
      iter g
      = Ret [mkParticipantRoundOutput 1 2
               (Payload2 (mkRound2Data 0 1 Secret (mkShare 2 10)
                            (round2_transcript_hash Toy.backend secret_first_r1_full)))]
  | Err _ => False
  end.
Proof. vm_compute. repeat split. Qed.

(** ** C9 *)

(** C9, as stated, fails: [round1] sets [round = Two], and in that state a
    Round-1 payload from an ordinal not yet heard is accepted and recorded
    (the second participant accepts the first one's payload after its own
    round 1). *)
Theorem round1_payload_accepted_in_round_two :
  round secret_second_r1 = Two /\
  BTreeMap.contains_key 0 (received_round1_data secret_second_r1) = false /\
  r1_sender_ordinal secret_first_payload = 0%nat /\
  deliver Toy.backend secret_second_r1 (Payload1 secret_first_payload)
    = Ret (secret_second_r1_full, Ok tt) /\
  BTreeMap.get 0 (received_round1_data secret_second_r1_full) = Some secret_first_payload.
Proof. vm_compute. repeat split. Qed.

Lemma receive_round2data_keeps_round1 :
  forall B st d st' r,
    receive_round2data B st d = Ret (st', r) ->
    received_round1_data st' = received_round1_data st.
Proof.
  intros B st d st' r H.
  pose proof (receive_round2data_rejection B st d) as Hrej.
  destruct r as [u | e].
  - clear Hrej. unfold receive_round2data in H.
    destruct (round_gt _ _); [discriminate |].
    destruct (check_sending_participant_id B st _ _); [| discriminate].
    destruct (negb _); [discriminate |].
    destruct (BTreeMap.contains_key _ _); [discriminate |].
    destruct (BTreeMap.get (ordinal st) _); [| discriminate].
    destruct (negb (bytes_eqb _ _)); [discriminate |].
    destruct (BTreeMap.get _ (received_round1_data st)); [| discriminate].
    destruct (negb (gis_identity _ _)); inversion H; reflexivity.
  - rewrite H in Hrej. destruct Hrej as [-> _]. reflexivity.
Qed.

Lemma round3_keeps_round1 :
  forall B st st' r,
    round3 B st = Ret (st', r) ->
    received_round1_data st' = received_round1_data st.
Proof.
  intros B st st' r H. unfold round3 in H.
  destruct (negb (round3_ready st)); [inversion H; reflexivity |].
  destruct (BTreeMap.index (secret_shares st) (ordinal st)) as [og |]; cbn [obind] in H;
    [| discriminate].
  destruct (round3_loop B st) as [[[ar pk] v] |]; cbn [obind] in H; [| discriminate].
  destruct (_ || _); [inversion H; reflexivity |].
  destruct (feq _ _ _); inversion H; reflexivity.
Qed.

(** C9 (amended): while [round] is One or Two, a Round-1 payload from an
    ordinal not yet heard that passes the other checks of
    [receive_round1data] is accepted and recorded under its ordinal.  Once
    the participant has advanced past round 2 ([round] is Three or Four),
    every Round-1 payload is rejected with a [RoundError] and the state is
    unchanged, and neither [receive] nor [run] changes
    [received_round1_data] any more: the participant completes with the
    Round-1 set it held at its round-2 advance. *)
Theorem round1_payload_acceptance_window :
  forall (B : Backend) (st : Participant),
    (round_gt (round st) Two = false ->
     forall (d : Round1Data) (c0 : Z) (rest : list Z),
       BTreeMap.contains_key (r1_sender_ordinal d) (received_round1_data st) = false ->
       check_sending_participant_id B st (r1_sender_ordinal d) (r1_sender_id d) = Ok tt ->
       r1_feldman_commitments d = c0 :: rest ->
       length (r1_feldman_commitments d) = threshold st ->
       existsb (gis_identity B) rest = false ->
       check_feldman_verifier B (r1_sender_type d) c0 = true ->
       verify_signature B st d = Ret (Ok tt) ->
       exists st',
         receive_round1data B st d = Ret (st', Ok tt) /\
         st' = set_round1 st (BTreeMap.insert (r1_sender_ordinal d) d (received_round1_data st))
                 (round st) /\
         BTreeMap.get (r1_sender_ordinal d) (received_round1_data st') = Some d) /\
    (round_gt (round st) Two = true ->
     (forall d, receive_round1data B st d
                = Ret (st, Err (RoundError "Round 1: Invalid round payload received"))) /\
     (forall bytes st' r, receive B st bytes = Ret (st', r) ->
                          received_round1_data st' = received_round1_data st) /\
     (forall rnd st' r, run B st rnd = Ret (st', r) ->
                        received_round1_data st' = received_round1_data st)).
Proof.
  intros B st. split.
  - intros Hr d c0 rest Hk Hc Hcs Hlen Hid Hf Hv.
    eexists. split; [| split; [reflexivity | apply btree_get_insert_eq]].
    unfold receive_round1data. rewrite Hr, Hk, Hc, Hcs.
    rewrite <- Hcs, Hlen, Nat.eqb_refl. cbn [negb]. rewrite Hid, Hf. cbn [negb].
    rewrite Hv. reflexivity.
  - intros Hr.
    assert (H1 : forall d, receive_round1data B st d
                 = Ret (st, Err (RoundError "Round 1: Invalid round payload received"))).
    { intros d. unfold receive_round1data. rewrite Hr. reflexivity. }
    split; [exact H1 | split].
    + intros [| b rest] st' r H; [discriminate |].
      unfold receive in H. cbn [vec_get nth_error obind] in H.
      destruct (round_try_from b) as [[] | e]; try (inversion H; reflexivity).
      * destruct (decode_round1 B _) as [d | e]; [| inversion H; reflexivity].
        rewrite H1 in H. inversion H; reflexivity.
      * destruct (decode_round2 B _) as [d | e]; [| inversion H; reflexivity].
        eapply receive_round2data_keeps_round1; eauto.
    + intros rnd st' r H. unfold run in H.
      destruct (round st) eqn:Hround; try discriminate.
      * eapply round3_keeps_round1; eauto.
      * inversion H; reflexivity.
Qed.

(** Both halves at work: the second participant in round Two accepts the
    first one's payload, and the first participant in round Three refuses
    every Round-1 payload. *)
Lemma round1_payload_acceptance_window_witness :
  (round_gt (round secret_second_r1) Two = false /\
   BTreeMap.contains_key (r1_sender_ordinal secret_first_payload)
     (received_round1_data secret_second_r1) = false /\
   check_sending_participant_id Toy.backend secret_second_r1
     (r1_sender_ordinal secret_first_payload) (r1_sender_id secret_first_payload) = Ok tt /\
   r1_feldman_commitments secret_first_payload = [4; 3] /\
   length (r1_feldman_commitments secret_first_payload) = threshold secret_second_r1 /\
   existsb (gis_identity Toy.backend) [3] = false /\
   check_feldman_verifier Toy.backend (r1_sender_type secret_first_payload) 4 = true /\
   verify_signature Toy.backend secret_second_r1 secret_first_payload = Ret (Ok tt) /\
   exists st',
     receive_round1data Toy.backend secret_second_r1 secret_first_payload = Ret (st', Ok tt) /\
     st' = set_round1 secret_second_r1
             (BTreeMap.insert (r1_sender_ordinal secret_first_payload) secret_first_payload
                (received_round1_data secret_second_r1))
             (round secret_second_r1) /\
     BTreeMap.get (r1_sender_ordinal secret_first_payload) (received_round1_data st')
       = Some secret_first_payload) /\
  (round_gt (round secret_first_r2) Two = true /\
   (forall d, receive_round1data Toy.backend secret_first_r2 d
              = Ret (secret_first_r2,
                     Err (RoundError "Round 1: Invalid round payload received"))) /\
   (forall bytes st' r, receive Toy.backend secret_first_r2 bytes = Ret (st', r) ->
                        received_round1_data st' = received_round1_data secret_first_r2) /\
   (forall rnd st' r, run Toy.backend secret_first_r2 rnd = Ret (st', r) ->
                      received_round1_data st' = received_round1_data secret_first_r2)).
Proof.
  split.
  - do 8 (split; [vm_compute; reflexivity |]).
    apply (proj1 (round1_payload_acceptance_window Toy.backend secret_second_r1)
             ltac:(vm_compute; reflexivity) secret_first_payload 4 [3]);
      vm_compute; reflexivity.
  - split; [vm_compute; reflexivity |].
    apply (proj2 (round1_payload_acceptance_window Toy.backend secret_first_r2)).
    vm_compute. reflexivity.
Defined.

(** ** C5 *)

Lemma add_mod_idemp_l_any : forall a b m, (a mod m + b) mod m = (a + b) mod m.
Proof.
  intros a b m. destruct (Z.eq_dec m 0) as [-> | Hm].
  - rewrite !Z.mod_0_r. reflexivity.
  - apply Z.add_mod_idemp_l. exact Hm.
Qed.

Lemma round3_fold_panic :
  forall B st l, fold_left (round3_step B st) l Panic = Panic.
Proof. intros B st l. induction l as [| [o d] l IH]; [reflexivity | exact IH]. Qed.

(** The round-3 loop adds up the first commitments and the share values of
    the entries it visits. *)
Lemma round3_fold_sums :
  forall B st l a X Y ar pk v,
    fold_left (round3_step B st) l (Ret (a, X mod order B, Y mod order B)) = Ret (ar, pk, v) ->
    pk = (X + fold_right Z.add 0 (map (first_commitment st) (map fst l))) mod order B /\
    v = (Y + fold_right Z.add 0 (map (fun '(_, d) => value (r2_secret_share d)) l)) mod order B.
Proof.
  intros B st l. induction l as [| [o d] l IH]; intros a X Y ar pk v H.
  - cbn in H. inversion H. rewrite !Z.add_0_r. split; reflexivity.
  - cbn [fold_left] in H. unfold round3_step at 2 in H. cbn [obind] in H.
    unfold BTreeMap.index in H.
    destruct (BTreeMap.get o (received_round1_data st)) as [r1 |] eqn:Hget;
      cbn [obind] in H; [| rewrite round3_fold_panic in H; discriminate].
    destruct (r1_feldman_commitments r1) as [| c0 rest] eqn:Hcs;
      cbn [vec_get nth_error obind] in H; [rewrite round3_fold_panic in H; discriminate |].
    unfold gadd, fadd in H. rewrite !add_mod_idemp_l_any in H.
    apply IH in H. destruct H as [Hpk Hv].
    assert (Hfc : first_commitment st o = c0).
    { unfold first_commitment. rewrite Hget, Hcs. reflexivity. }
    cbn [map fold_right fst]. rewrite Hfc, Hpk, Hv, !Z.add_assoc. split; reflexivity.
Qed.

(** C5: whenever [round3] succeeds, it commits [final_share.id = id],
    [final_share.value = Σ_o received_r2[o].secret_share.value] and
    [public_key = Σ_o received_r1[o].commitments[0]] over the ordinals of
    [received_round2_data], with [round = Four] and [completed = true]. *)
Theorem round3_commits_aggregates :
  forall (B : Backend) (st st' : Participant) (g : RoundOutputGenerator),
    round3 B st = Ret (st', Ok g) ->
    identifier (secret_share st') = id st /\
    value (secret_share st') = spec_final_share_value B st /\
    public_key st' = spec_public_key B st /\
    round st' = Four /\
    completed st' = true.
Proof.
  intros B st st' g H. unfold round3 in H.
  destruct (negb (round3_ready st)); [discriminate |].
  destruct (BTreeMap.index (secret_shares st) (ordinal st)) as [og |]; cbn [obind] in H;
    [| discriminate].
  destruct (round3_loop B st) as [[[ar pk] v] |] eqn:Hloop; cbn [obind] in H; [| discriminate].
  destruct (_ || _); [discriminate |].
  destruct (feq _ _ _); [discriminate |].
  inversion H; subst; clear H.
  unfold round3_loop, gidentity in Hloop.
  rewrite <- (Zmod_0_l (order B)) in Hloop at 1 2.
  apply round3_fold_sums in Hloop. destruct Hloop as [Hpk Hv].
  cbn. unfold spec_final_share_value, spec_public_key, BTreeMap.keys.
  rewrite Hpk, Hv. repeat split.
Qed.

Lemma round3_commits_aggregates_witness :
  exists st' g,
    round3 Toy.backend round3_state = Ret (st', Ok g) /\
    identifier (secret_share st') = id round3_state /\
    value (secret_share st') = spec_final_share_value Toy.backend round3_state /\
    public_key st' = spec_public_key Toy.backend round3_state /\
    round st' = Four /\
    completed st' = true.
Proof.
  do 2 eexists. split; [reflexivity |].
  eapply (round3_commits_aggregates Toy.backend round3_state). reflexivity.
Defined.

(** ** C7 *)

Section LagrangeProofs.

Variable B : Backend.

Hypothesis Hprime : Z.prime (order B).

Local Abbreviation P := (order B).

Lemma order_gt_1 : 1 < P.
Proof. pose proof (Z.prime_ge_2 _ Hprime). lia. Qed.

Lemma mod_mul_cong (a a' b b' : Z) :
  a mod P = a' mod P -> b mod P = b' mod P -> (a * b) mod P = (a' * b') mod P.
Proof. intros Ha Hb. rewrite Z.mul_mod, Ha, Hb, <- Z.mul_mod; auto; pose proof order_gt_1; lia. Qed.

Lemma sub_mod_nonzero (x i : Z) : x mod P <> i mod P -> (x - i) mod P <> 0.
Proof.
  pose proof order_gt_1. intros Hne H0. apply Hne.
  apply Z.mod_divide in H0; [| lia]. destruct H0 as [q Hq].
  replace x with (i + q * P) by lia. rewrite Z.mod_add; lia.
Qed.

Lemma mul_mod_nonzero (a b : Z) : a mod P <> 0 -> b mod P <> 0 -> (a * b) mod P <> 0.
Proof.
  pose proof order_gt_1. intros Ha Hb H0.
  apply Z.mod_divide in H0; [| lia].
  apply (Z.divide_prime_mul a b P Hprime) in H0.
  destruct H0 as [Hd | Hd]; apply Z.mod_divide in Hd; lia.
Qed.

Lemma feq_false_mod (x i : Z) : feq B x i = false -> x mod P <> i mod P.
Proof. unfold feq. intros H. apply Z.eqb_neq in H. exact H. Qed.

Lemma lagrange_denominator_nonzero (i : Z) (ids : list Z) :
  lagrange_denominator B i ids mod P <> 0.
Proof.
  pose proof order_gt_1.
  induction ids as [| x ids IH]; cbn [lagrange_denominator fold_right].
  - rewrite Z.mod_small; lia.
  - destruct (feq B x i) eqn:E; [exact IH |].
    apply mul_mod_nonzero; [apply sub_mod_nonzero, feq_false_mod, E | exact IH].
Qed.

Lemma lagrange_fold (i : Z) (ids : list Z) (n0 d0 : Z) :
  let '(n, d) :=
    fold_left
      (fun '(num, den) x_j =>
         if feq B x_j i then (num, den)
         else (fmul B num x_j, fmul B den (fsub B x_j i)))
      ids (n0, d0) in
  n mod P = (n0 * lagrange_numerator B i ids) mod P /\
  d mod P = (d0 * lagrange_denominator B i ids) mod P.
Proof.
  pose proof order_gt_1.
  revert n0 d0. induction ids as [| x ids IH]; intros n0 d0;
    cbn [fold_left lagrange_numerator lagrange_denominator fold_right].
  - rewrite !Z.mul_1_r. split; reflexivity.
  - destruct (feq B x i) eqn:E; [apply IH |].
    specialize (IH (fmul B n0 x) (fmul B d0 (fsub B x i))).
    destruct (fold_left _ ids _) as [n d]. destruct IH as [Hn Hd].
    rewrite Hn, Hd. fold (lagrange_numerator B i ids) (lagrange_denominator B i ids).
    unfold fmul, fsub. split.
    + rewrite Z.mul_mod_idemp_l by lia. f_equal. ring.
    + rewrite Z.mul_mod_idemp_l by lia.
      rewrite <- Z.mul_assoc, (Z.mul_comm ((x - i) mod P)), Z.mul_assoc,
        Z.mul_mod_idemp_r by lia.
      f_equal. ring.
Qed.

Lemma lagrange_coefficient_cong (i : Z) (ids : list Z) :
  lagrange_coefficient B i ids mod P =
  (lagrange_numerator B i ids * lagrange_denominator B i ids ^ (P - 2)) mod P.
Proof.
  pose proof order_gt_1.
  induction ids as [| x ids IH];
    cbn [lagrange_coefficient lagrange_numerator lagrange_denominator fold_right].
  - rewrite Z.pow_1_l by lia. reflexivity.
  - destruct (feq B x i) eqn:E; [exact IH |].
    fold (lagrange_coefficient B i ids) (lagrange_numerator B i ids)
      (lagrange_denominator B i ids).
    assert (Hfv : finv_val B (fsub B x i) mod P = (x - i) ^ (P - 2) mod P).
    { unfold finv_val, finv, fis_zero, fsub.
      rewrite Z.mod_mod by lia.
      destruct (Z.eqb_spec ((x - i) mod P) 0) as [Hz | _].
      - exfalso. exact (sub_mod_nonzero x i (feq_false_mod x i E) Hz).
      - rewrite Z.mod_mod, Z.mod_pow_l by lia. reflexivity. }
    unfold fmul. rewrite Z.mod_mod by lia.
    rewrite (mod_mul_cong _ (x * (x - i) ^ (P - 2)) _
               (lagrange_numerator B i ids * lagrange_denominator B i ids ^ (P - 2))).
    + f_equal. rewrite Z.pow_mul_l. ring.
    + rewrite Z.mod_mod by lia. apply mod_mul_cong; [reflexivity | exact Hfv].
    + exact IH.
Qed.

Lemma lagrange_coefficient_range (i : Z) (ids : list Z) :
  0 <= lagrange_coefficient B i ids < P.
Proof.
  pose proof order_gt_1.
  induction ids as [| x ids IH]; cbn [lagrange_coefficient fold_right]; [lia |].
  destruct (feq B x i); [exact IH |]. unfold fmul. apply Z.mod_pos_bound. lia.
Qed.

Lemma lagrange_ret (share : Share) (ids : list Z) :
  lagrange B share ids = Ret (lagrange_coefficient B (identifier share) ids).
Proof.
  pose proof order_gt_1.
  unfold lagrange.
  pose proof (lagrange_fold (identifier share) ids 1 1) as Hf.
  destruct (fold_left _ ids (1, 1)) as [n d]. destruct Hf as [Hn Hd].
  rewrite Z.mul_1_l in Hn, Hd.
  unfold finv, fis_zero. rewrite Hd.
  destruct (Z.eqb_spec (lagrange_denominator B (identifier share) ids mod P) 0) as [Hz | _].
  - exfalso. exact (lagrange_denominator_nonzero _ _ Hz).
  - f_equal. unfold fmul.
    rewrite <- (Z.mod_small (lagrange_coefficient B (identifier share) ids) P)
      by apply lagrange_coefficient_range.
    rewrite lagrange_coefficient_cong.
    apply mod_mul_cong; [exact Hn |].
    rewrite Z.mod_mod, Z.mod_pow_l by lia. reflexivity.
Qed.

Lemma finv_val_inverse (x : Z) : fis_zero B x = false -> fmul B x (finv_val B x) = 1.
Proof.
  pose proof order_gt_1.
  intros Hx. unfold finv_val, finv. rewrite Hx. unfold fmul.
  unfold fis_zero in Hx. apply Z.eqb_neq in Hx.
  rewrite Z.mul_mod_idemp_r, <- Z.mul_mod_idemp_l by lia.
  replace (x mod P * (x mod P) ^ (P - 2)) with ((x mod P) ^ (P - 1)).
  - apply Z.fermat_nz; [exact Hprime |]. rewrite Z.mod_mod; lia.
  - replace (P - 1) with (Z.succ (P - 2)) by lia. rewrite Z.pow_succ_r by lia. reflexivity.
Qed.

End LagrangeProofs.

(** C7: over a prime-order scalar field, [with_secret] builds the [Secret]
    participant whose contributed secret is [old_share.value * λ], with
    [λ = Π_{x ∈ prev_ids, x ≠ old_share.id} x · (x − old_share.id)^{-1}]
    taken factor by factor; [lagrange]'s single inversion of the product of
    denominators gives this same value, the denominator product is nonzero,
    and the inversion used is a true field inverse. *)
Theorem with_secret_lagrange :
  forall (B : Backend) (new_identifier : Z) (old_share : Share)
         (parameters : Parameters) (prev_ids : list Z),
    Z.prime (order B) ->
    fis_zero B (lagrange_denominator B (identifier old_share) prev_ids) = false /\
    (forall x, fis_zero B x = false -> fmul B x (finv_val B x) = 1) /\
    lagrange B old_share prev_ids = Ret (lagrange_coefficient B (identifier old_share) prev_ids) /\
    with_secret B new_identifier old_share parameters prev_ids =
      initialize B new_identifier parameters
        (fmul B (value old_share) (lagrange_coefficient B (identifier old_share) prev_ids))
        Secret.
Proof.
  intros B new_identifier old_share parameters prev_ids Hp.
  split; [| split; [| split]].
  - unfold fis_zero. apply Z.eqb_neq, lagrange_denominator_nonzero, Hp.
  - apply finv_val_inverse, Hp.
  - apply lagrange_ret, Hp.
  - unfold with_secret. rewrite (lagrange_ret B Hp). reflexivity.
Qed.

Lemma with_secret_lagrange_witness :
  Z.prime (order Toy.backend) /\
  (fis_zero Toy.backend (lagrange_denominator Toy.backend 2 [1; 2; 3]) = false /\
   (forall x, fis_zero Toy.backend x = false -> fmul Toy.backend x (finv_val Toy.backend x) = 1) /\
   lagrange Toy.backend (mkShare 2 5) [1; 2; 3]
     = Ret (lagrange_coefficient Toy.backend 2 [1; 2; 3]) /\
   with_secret Toy.backend 1 (mkShare 2 5) (Toy.params 2 3) [1; 2; 3] =
     initialize Toy.backend 1 (Toy.params 2 3)
       (fmul Toy.backend 5 (lagrange_coefficient Toy.backend 2 [1; 2; 3])) Secret).
Proof.
  assert (H11 : Z.prime (order Toy.backend)).
  { change (order Toy.backend) with 11. split; [lia |]. intros n Hn [q Hq].
    assert (n = 2 \/ n = 3 \/ n = 4 \/ n = 5 \/ n = 6 \/ n = 7 \/ n = 8 \/ n = 9 \/ n = 10)
      as Hc by lia.
    repeat destruct Hc as [Hc | Hc]; subst; lia. }
  split; [exact H11 |].
  apply (with_secret_lagrange Toy.backend 1 (mkShare 2 5) (Toy.params 2 3) [1; 2; 3]).
  exact H11.
Defined.

(** ** Further properties of the code *)

(** *** Arithmetic and container helpers *)

Lemma mod_mod_any (a m : Z) : (a mod m) mod m = a mod m.
Proof. apply Z.mod_mod_divide, Z.divide_refl. Qed.

Lemma mul_mod_idemp_l_any (a b m : Z) : ((a mod m) * b) mod m = (a * b) mod m.
Proof.
  destruct (Z.eq_dec m 0) as [-> | Hm]; [rewrite !Z.mod_0_r; reflexivity |].
  apply Z.mul_mod_idemp_l, Hm.
Qed.

Lemma mul_mod_idemp_r_any (a b m : Z) : (a * (b mod m)) mod m = (a * b) mod m.
Proof. rewrite (Z.mul_comm a), mul_mod_idemp_l_any, Z.mul_comm. reflexivity. Qed.

Lemma sub_mod_idemp_l_any (a b m : Z) : ((a mod m) - b) mod m = (a - b) mod m.
Proof.
  destruct (Z.eq_dec m 0) as [-> | Hm]; [rewrite !Z.mod_0_r; reflexivity |].
  rewrite Zminus_mod, mod_mod_any, <- Zminus_mod. reflexivity.
Qed.

Lemma sub_mod_idemp_r_any (a b m : Z) : (a - (b mod m)) mod m = (a - b) mod m.
Proof.
  destruct (Z.eq_dec m 0) as [-> | Hm]; [rewrite !Z.mod_0_r; reflexivity |].
  rewrite Zminus_mod, mod_mod_any, <- Zminus_mod. reflexivity.
Qed.

Lemma vec_get_nth {A} (v : list A) (i : nat) (d : A) :
  (i < length v)%nat -> vec_get v i = Ret (nth i v d).
Proof.
  intros H. unfold vec_get. destruct (nth_error v i) eqn:E.
  - f_equal. symmetry. apply nth_error_nth, E.
  - apply nth_error_None in E. lia.
Qed.

Lemma vec_set_spec {A} (v : list A) (i : nat) (x : A) :
  (i < length v)%nat ->
  exists v', vec_set v i x = Ret v' /\ length v' = length v /\
             (forall d, nth i v' d = x) /\ (forall k d, k <> i -> nth k v' d = nth k v d).
Proof.
  revert i. induction v as [| y v IH]; intros i H; cbn in H; [lia |].
  destruct i as [| i].
  - exists (x :: v). split; [reflexivity |]. split; [reflexivity |].
    split; [reflexivity |]. intros [| k] d Hk; [congruence | reflexivity].
  - destruct (IH i) as [v' [E [L [N1 N2]]]]; [lia |].
    exists (y :: v'). cbn [vec_set]. rewrite E. split; [reflexivity |].
    split; [cbn; congruence |]. split; [exact N1 |].
    intros [| k] d Hk; [reflexivity | cbn; apply N2; congruence].
Qed.

(** *** [Round] and [ParticipantType] conversions, [src/data.rs] *)

(** The [TryFrom<u8>] of [Round] accepts exactly the bytes the [From<Round>]
    conversion produces, and inverts it. *)
Theorem round_u8_round_trip :
  forall (b : Byte.byte) (r : Round), round_try_from b = Ok r <-> b = round_to_u8 r.
Proof.
  intros b r. split.
  - intros H. destruct r; destruct b; try discriminate; reflexivity.
  - intros ->. destruct r; reflexivity.
Qed.

(** The [TryFrom<u16>] of [ParticipantType] accepts exactly 1 and 2 and
    inverts the [From<ParticipantType>] conversion. *)
Theorem participant_type_round_trip :
  forall (n : nat) (t : ParticipantType),
    participant_type_try_from n = inl t <-> n = participant_type_to_nat t.
Proof.
  intros n t. split.
  - intros H. destruct n as [| [| [| n]]]; cbn in H; try discriminate;
      inversion H; reflexivity.
  - intros ->. destruct t; reflexivity.
Qed.

(** *** [Participant::receive] on a tag that is not a payload round *)

(** A slice whose first byte is neither 1 nor 2 is answered with an error and
    leaves the state as it was, whatever follows: tags 3 and 4 give
    "Protocol is complete", any other tag the initialization error of the
    failed [Round] conversion. *)
Theorem receive_unknown_tag :
  forall (B : Backend) (st : Participant) (b : Byte.byte) (rest : list Byte.byte),
    b <> Byte.x01 -> b <> Byte.x02 ->
    receive B st (b :: rest) =
    Ret (st, Err (if Byte.eqb b Byte.x03 || Byte.eqb b Byte.x04
                  then RoundError "Protocol is complete"
                  else InitializationError "Invalid round")).
Proof.
  intros B st b rest H1 H2. unfold receive. cbn [vec_get nth_error obind].
  destruct b; try congruence; reflexivity.
Qed.

Lemma receive_unknown_tag_witness :
  (Byte.x03 <> Byte.x01 /\ Byte.x03 <> Byte.x02) /\
  receive Toy.backend round3_state [Byte.x03; Byte.x07] =
  Ret (round3_state, Err (RoundError "Protocol is complete")).
Proof.
  split; [split; discriminate |].
  apply (receive_unknown_tag Toy.backend round3_state Byte.x03 [Byte.x07]); discriminate.
Defined.

(** *** [powers_of_i], built by [Participant::initialize] *)

(** For a threshold [t >= 2], the vector [initialize] builds has [t] entries
    and entry [i] is [id^i] in the scalar field. *)
Theorem compute_powers_of_i_spec :
  forall (B : Backend) (i : Z) (t : nat),
    (2 <= t)%nat ->
    exists pw, compute_powers_of_i B i t = Ret pw /\ length pw = t /\
               (forall j, (j < t)%nat -> nth j pw 0 mod order B = i ^ Z.of_nat j mod order B).
Proof.
  intros B i t Ht.
  set (P := order B).
  assert (Hloop : forall n j v,
             (2 <= j)%nat -> (j + n = t)%nat -> length v = t ->
             (forall k, (k < j)%nat -> nth k v 0 mod P = i ^ Z.of_nat k mod P) ->
             exists pw, fold_left
                          (fun acc k => v <- acc ;; prev <- vec_get v (k - 1) ;;
                                        vec_set v k (fmul B prev i))
                          (seq j n) (Ret v) = Ret pw /\ length pw = t /\
                        (forall k, (k < t)%nat -> nth k pw 0 mod P = i ^ Z.of_nat k mod P)).
  { induction n as [| n IH]; intros j v Hj Hjn Hl Hv.
    - exists v. split; [reflexivity |]. split; [exact Hl |].
      intros k Hk. apply Hv. lia.
    - cbn [seq fold_left obind].
      rewrite (vec_get_nth v (j - 1) 0) by lia. cbn [obind].
      destruct (vec_set_spec v j (fmul B (nth (j - 1) v 0) i)) as [v' [E [L [N1 N2]]]]; [lia |].
      rewrite E. apply (IH (S j) v'); [lia | lia | congruence |].
      intros k Hk. destruct (Nat.eq_dec k j) as [-> | Hne].
      + rewrite N1. unfold fmul. fold P. rewrite mod_mod_any.
        rewrite <- mul_mod_idemp_l_any, Hv by lia. rewrite mul_mod_idemp_l_any.
        replace (Z.of_nat j) with (Z.succ (Z.of_nat (j - 1))) by lia.
        rewrite Z.pow_succ_r by lia. f_equal. ring.
      + rewrite N2 by exact Hne. apply Hv. lia. }
  unfold compute_powers_of_i.
  destruct (vec_set_spec (repeat 1 t) 1 i) as [v [E [L [N1 N2]]]];
    [rewrite repeat_length; lia |].
  rewrite E. cbn [obind]. unfold powers_loop.
  apply (Hloop (t - 2)%nat 2%nat v); [lia | lia | rewrite L, repeat_length; reflexivity |].
  intros k Hk. destruct k as [| [| k]]; [| | lia].
  - rewrite N2 by lia. destruct t as [| t]; [lia |]. reflexivity.
  - rewrite N1. rewrite Z.pow_1_r. reflexivity.
Qed.

Lemma compute_powers_of_i_spec_witness :
  (2 <= 3)%nat /\
  exists pw, compute_powers_of_i Toy.backend 2 3 = Ret pw /\ length pw = 3%nat /\
             (forall j, (j < 3)%nat -> nth j pw 0 mod order Toy.backend =
                                     2 ^ Z.of_nat j mod order Toy.backend).
Proof.
  split; [lia |]. apply (compute_powers_of_i_spec Toy.backend 2 3). lia.
Defined.

(** *** Arithmetic in the field, as a congruence *)

#[local] Instance cong_equiv (m : Z) : Equivalence (cong m).
Proof.
  unfold cong. split; [intros ?; reflexivity | intros ? ? ?; congruence |
                       intros ? ? ? ? ?; congruence].
Qed.

#[local] Instance cong_add (m : Z) : Proper (cong m ==> cong m ==> cong m) Z.add.
Proof. intros a b H c d H'. apply (Zplus_eqm m); assumption. Qed.

#[local] Instance cong_sub (m : Z) : Proper (cong m ==> cong m ==> cong m) Z.sub.
Proof. intros a b H c d H'. apply (Zminus_eqm m); assumption. Qed.

#[local] Instance cong_mul (m : Z) : Proper (cong m ==> cong m ==> cong m) Z.mul.
Proof. intros a b H c d H'. apply (Zmult_eqm m); assumption. Qed.

Lemma cong_mod (m a : Z) : cong m (a mod m) a.
Proof. unfold cong. apply mod_mod_any. Qed.

Lemma cong_ring (m a b : Z) : a = b -> cong m a b.
Proof. intros ->. reflexivity. Qed.

Lemma cong_sub_zero (m a b : Z) : cong m a b <-> (a - b) mod m = 0.
Proof.
  unfold cong. destruct (Z.eq_dec m 0) as [-> | Hm]; [rewrite !Z.mod_0_r; lia |].
  split.
  - intros H. rewrite Zminus_mod, H, Z.sub_diag. apply Zmod_0_l.
  - intros H. apply Z.mod_divide in H; [| exact Hm]. destruct H as [q Hq].
    replace a with (b + q * m) by lia. rewrite Z.mod_add; [reflexivity | exact Hm].
Qed.

Lemma prime_mul_mod_zero (m h z : Z) :
  Z.prime m -> h mod m <> 0 -> ((h * z) mod m = 0 <-> z mod m = 0).
Proof.
  intros Hp Hh. pose proof (Z.prime_ge_2 _ Hp) as Hm2. split.
  - intros H. apply Z.mod_divide in H; [| lia].
    apply (Z.divide_prime_mul h z m Hp) in H. destruct H as [H | H].
    + apply Z.mod_divide in H; [contradiction | lia].
    + apply Z.mod_divide; [lia | exact H].
  - intros H. rewrite <- mul_mod_idemp_r_any, H, Z.mul_0_r. reflexivity.
Qed.

Lemma sum_of_products_cong (B : Backend) (l : list (Z * Z)) :
  cong (order B) (sum_of_products B l) (fold_right (fun '(s, g) acc => g * s + acc) 0 l).
Proof.
  unfold sum_of_products.
  assert (H : forall a, cong (order B)
                (fold_left (fun acc '(s, g) => gadd B acc (gmul B g s)) l a)
                (a + fold_right (fun '(s, g) acc => g * s + acc) 0 l)).
  { induction l as [| [s g] l IH]; intros a; cbn [fold_left fold_right].
    - apply cong_ring. ring.
    - rewrite IH. unfold gadd, gmul. rewrite !cong_mod. apply cong_ring. ring. }
  rewrite H. unfold gidentity. apply cong_ring. ring.
Qed.

Lemma horner_cong (B : Backend) (cs : list Z) (x : Z) :
  cong (order B) (horner B cs x) (fold_right (fun a acc => a + x * acc) 0 cs).
Proof.
  induction cs as [| a cs IH]; cbn [horner fold_right]; [reflexivity |].
  unfold fadd, fmul. rewrite !cong_mod. fold (horner B cs x). rewrite IH. reflexivity.
Qed.

Lemma feldman_products_cong (B : Backend) (h x : Z) (cs pw : list Z) (j0 : nat) :
  length pw = length cs ->
  (forall j, (j < length cs)%nat -> cong (order B) (nth j pw 0) (x ^ Z.of_nat (j0 + j))) ->
  cong (order B)
    (fold_right (fun '(s, g) acc => g * s + acc) 0 (combine pw (map (gmul B h) cs)))
    (h * x ^ Z.of_nat j0 * fold_right (fun a acc => a + x * acc) 0 cs).
Proof.
  revert pw j0. induction cs as [| a cs IH]; intros pw j0 Hl Hpw.
  - destruct pw; [| discriminate]. apply cong_ring. cbn. ring.
  - destruct pw as [| w pw]; [discriminate |]. cbn [combine map fold_right].
    cbn in Hl. injection Hl as Hl.
    assert (Hw : cong (order B) w (x ^ Z.of_nat j0)).
    { rewrite (Hpw 0%nat) by (cbn; lia). rewrite Nat.add_0_r. reflexivity. }
    rewrite Hw, (IH pw (S j0) Hl).
    2: { intros j Hj. rewrite (Hpw (S j)) by (cbn; lia). rewrite Nat.add_succ_r. reflexivity. }
    unfold gmul. rewrite cong_mod. apply cong_ring.
    rewrite Nat2Z.inj_succ, Z.pow_succ_r by lia. ring.
Qed.

(** *** The share check of [receive_round2data] *)

(** With [powers_of_i] as [initialize] builds it for the receiver's id [x],
    and Feldman commitments [H·a_j] of a polynomial with coefficients [a_j],
    the check [H·v − Σ_j powers_of_i[j]·C_j == identity] holds exactly when
    [v] is the polynomial's value at [x] (the group having prime order and
    [H] not the identity). *)
Theorem feldman_share_check_iff :
  forall (B : Backend) (x h v : Z) (t : nat) (cs pw : list Z),
    Z.prime (order B) ->
    gis_identity B h = false ->
    (2 <= t)%nat ->
    length cs = t ->
    compute_powers_of_i B x t = Ret pw ->
    gis_identity B (gsub B (gmul B h v) (sum_of_products B (combine pw (map (gmul B h) cs))))
      = true
    <-> feq B v (horner B cs x) = true.
Proof.
  intros B x h v t cs pw Hp Hh Ht Hl Hpw.
  destruct (compute_powers_of_i_spec B x t Ht) as [pw' [E [L N]]].
  rewrite Hpw in E. injection E as <-.
  unfold gis_identity in Hh. apply Z.eqb_neq in Hh.
  assert (Hc : cong (order B)
                 (gsub B (gmul B h v) (sum_of_products B (combine pw (map (gmul B h) cs))))
                 (h * (v - fold_right (fun a acc => a + x * acc) 0 cs))).
  { unfold gsub, gmul. rewrite cong_mod, cong_mod, sum_of_products_cong.
    rewrite (feldman_products_cong B h x cs pw 0).
    - apply cong_ring. cbn. ring.
    - congruence.
    - intros j Hj. apply N. lia. }
  unfold gis_identity, feq. rewrite Z.eqb_eq, Z.eqb_eq.
  unfold cong in Hc. rewrite Hc, (prime_mul_mod_zero _ _ _ Hp Hh).
  rewrite <- cong_sub_zero. fold (cong (order B) v (horner B cs x)).
  rewrite (horner_cong B cs x). reflexivity.
Qed.

Lemma feldman_share_check_iff_witness :
  (Z.prime (order Toy.backend) /\ gis_identity Toy.backend 1 = false /\ (2 <= 2)%nat /\
   length [4; 3] = 2%nat /\ compute_powers_of_i Toy.backend 2 2 = Ret [1; 2]) /\
  (gis_identity Toy.backend
     (gsub Toy.backend (gmul Toy.backend 1 10)
        (sum_of_products Toy.backend (combine [1; 2] (map (gmul Toy.backend 1) [4; 3]))))
     = true
   <-> feq Toy.backend 10 (horner Toy.backend [4; 3] 2) = true).
Proof.
  assert (H11 : Z.prime (order Toy.backend)).
  { change (order Toy.backend) with 11. split; [lia |]. intros n Hn [q Hq].
    assert (n = 2 \/ n = 3 \/ n = 4 \/ n = 5 \/ n = 6 \/ n = 7 \/ n = 8 \/ n = 9 \/ n = 10)
      as Hc by lia.
    repeat destruct Hc as [Hc | Hc]; subst; lia. }
  split; [split; [exact H11 | split; [reflexivity | split; [lia | split; reflexivity]]] |].
  apply (feldman_share_check_iff Toy.backend 2 1 10 2 [4; 3] [1; 2]);
    [exact H11 | reflexivity | lia | reflexivity | reflexivity].
Defined.

Lemma feq_true_iff (B : Backend) (a b : Z) : feq B a b = true <-> cong (order B) a b.
Proof. unfold feq, cong. apply Z.eqb_eq. Qed.

Lemma geq_true_iff (B : Backend) (a b : Z) : geq B a b = true <-> cong (order B) a b.
Proof. unfold geq, cong. apply Z.eqb_eq. Qed.

(** *** The Schnorr check of [verify_signature] *)

(** For a payload whose first commitment is [C0 = H·a] and whose signature
    carries [R = H·k], [verify_signature] accepts exactly when
    [s = k + c·a] in the scalar field, where [c] is [hash_to_scalar] of the
    bytes [bytes_for_schnorr] builds from the payload (the group having prime
    order and [H] not the identity); otherwise it answers with an error. *)
Theorem verify_signature_iff :
  forall (B : Backend) (st : Participant) (d : Round1Data) (c0 : Z) (rest : list Z) (a k : Z),
    Z.prime (order B) ->
    gis_identity B (message_generator st) = false ->
    r1_feldman_commitments d = c0 :: rest ->
    c0 = gmul B (message_generator st) a ->
    sig_r (r1_signature d) = gmul B (message_generator st) k ->
    let c := hash_to_scalar B
               (bytes_for_schnorr B st (r1_sender_ordinal d) (r1_sender_id d) (r1_sender_type d)
                  (r1_feldman_commitments d) (sig_r (r1_signature d))) in
    (verify_signature B st d = Ret (Ok tt) <->
     feq B (sig_s (r1_signature d)) (fadd B k (fmul B c a)) = true) /\
    (verify_signature B st d = Ret (Ok tt) \/
     verify_signature B st d = Ret (Err (RoundError "Round 1: Received invalid round1 signature"))).
Proof.
  intros B st d c0 rest a k Hp Hh Hcs Hc0 Hr c.
  assert (Hg : geq B (sig_r (r1_signature d))
                 (gsub B (gmul B (message_generator st) (sig_s (r1_signature d))) (gmul B c0 c))
               = feq B (sig_s (r1_signature d)) (fadd B k (fmul B c a))).
  { apply eq_true_iff_eq. rewrite geq_true_iff, feq_true_iff.
    unfold gis_identity in Hh. apply Z.eqb_neq in Hh.
    rewrite Hr, Hc0, !cong_sub_zero.
    assert (E : cong (order B)
                  (gmul B (message_generator st) k -
                   gsub B (gmul B (message_generator st) (sig_s (r1_signature d)))
                     (gmul B (gmul B (message_generator st) a) c))
                  (message_generator st * (fadd B k (fmul B c a) - sig_s (r1_signature d)))).
    { unfold gsub, gmul, fadd, fmul. rewrite !cong_mod. apply cong_ring. ring. }
    unfold cong in E. rewrite E, (prime_mul_mod_zero _ _ _ Hp Hh).
    rewrite <- !cong_sub_zero. split; intros H; symmetry; exact H. }
  unfold verify_signature. fold c. rewrite Hcs. cbn [vec_get nth_error obind].
  rewrite Hg.
  destruct (feq B _ _); cbn; split; try (split; intros; congruence);
    [left | right]; reflexivity.
Qed.

Lemma verify_signature_iff_witness :
  let H := message_generator round3_state in
  let d := mkRound1Data 1 2 Secret [gmul Toy.backend H 4; 3]
             (mkSignature (gmul Toy.backend H 5) 0) in
  (Z.prime (order Toy.backend) /\ gis_identity Toy.backend H = false /\
   r1_feldman_commitments d = gmul Toy.backend H 4 :: [3] /\
   gmul Toy.backend H 4 = gmul Toy.backend H 4 /\
   sig_r (r1_signature d) = gmul Toy.backend H 5) /\
  let c := hash_to_scalar Toy.backend
             (bytes_for_schnorr Toy.backend round3_state (r1_sender_ordinal d) (r1_sender_id d)
                (r1_sender_type d) (r1_feldman_commitments d) (sig_r (r1_signature d))) in
  (verify_signature Toy.backend round3_state d = Ret (Ok tt) <->
   feq Toy.backend (sig_s (r1_signature d)) (fadd Toy.backend 5 (fmul Toy.backend c 4)) = true) /\
  (verify_signature Toy.backend round3_state d = Ret (Ok tt) \/
   verify_signature Toy.backend round3_state d
   = Ret (Err (RoundError "Round 1: Received invalid round1 signature"))).
Proof.
  intros H d.
  assert (H11 : Z.prime (order Toy.backend)).
  { change (order Toy.backend) with 11. split; [lia |]. intros n Hn [q Hq].
    assert (n = 2 \/ n = 3 \/ n = 4 \/ n = 5 \/ n = 6 \/ n = 7 \/ n = 8 \/ n = 9 \/ n = 10)
      as Hc by lia.
    repeat destruct Hc as [Hc | Hc]; subst; lia. }
  split; [split; [exact H11 | split; [reflexivity | split; [reflexivity | split; reflexivity]]] |].
  exact (verify_signature_iff Toy.backend round3_state d (gmul Toy.backend H 4) [3] 4 5
           H11 eq_refl eq_refl eq_refl eq_refl).
Defined.

(** *** [Participant::run] *)

(** Every call of [run] that returns either fails with a [RoundError] and
    leaves the state as it was, or succeeds and moves [round] exactly one
    step forward (One to Two, Two to Three, Three to Four). *)
Theorem run_fails_unchanged_or_advances :
  forall (B : Backend) (st : Participant) (rnd : Z) (st' : Participant)
         (r : DkgResult RoundOutputGenerator),
    run B st rnd = Ret (st', r) ->
    match r with
    | Err e => st' = st /\ is_round_error e = true
    | Ok _ => round_to_nat (round st') = S (round_to_nat (round st))
    end.
Proof.
  intros B st rnd st' r H. unfold run in H.
  destruct (round st) eqn:R.
  - unfold round1 in H. inversion H; subst. reflexivity.
  - unfold round2 in H. destruct (negb (round2_ready st)); inversion H; subst;
      [split; reflexivity | reflexivity].
  - unfold round3 in H.
    destruct (negb (round3_ready st)); [inversion H; subst; split; reflexivity |].
    destruct (BTreeMap.index (secret_shares st) (ordinal st)) as [og |]; cbn [obind] in H;
      [| discriminate].
    destruct (round3_loop B st) as [[[ar pk] v] |]; cbn [obind] in H; [| discriminate].
    destruct (_ || _); [inversion H; subst; split; reflexivity |].
    destruct (feq _ _ _); inversion H; subst; [split; reflexivity |].
    reflexivity.
  - inversion H; subst. split; reflexivity.
Qed.

Lemma run_fails_unchanged_or_advances_witness :
  exists st' r,
    run Toy.backend round3_state 0 = Ret (st', r) /\
    match r with
    | Err e => st' = round3_state /\ is_round_error e = true
    | Ok _ => round_to_nat (round st') = S (round_to_nat (round round3_state))
    end.
Proof.
  do 2 eexists. split; [reflexivity |].
  eapply (run_fails_unchanged_or_advances Toy.backend round3_state 0). reflexivity.
Defined.

(** *** Accepting a payload *)

(** A Round-1 payload is accepted only after every check of
    [receive_round1data] passed: the round is at most Two, the ordinal is new,
    the sender is known with a matching, nonzero id that is not ours, there
    are [threshold] commitments, none after the first is the identity, the
    first suits the sender's type, and the signature verifies.  Accepting it
    records it under its ordinal and changes nothing else. *)
Theorem receive_round1data_accepts_checked :
  forall (B : Backend) (st : Participant) (d : Round1Data) (st' : Participant) (u : unit),
    receive_round1data B st d = Ret (st', Ok u) ->
    round_gt (round st) Two = false /\
    BTreeMap.contains_key (r1_sender_ordinal d) (received_round1_data st) = false /\
    check_sending_participant_id B st (r1_sender_ordinal d) (r1_sender_id d) = Ok tt /\
    length (r1_feldman_commitments d) = threshold st /\
    (exists c0 rest, r1_feldman_commitments d = c0 :: rest /\
                     existsb (gis_identity B) rest = false /\
                     check_feldman_verifier B (r1_sender_type d) c0 = true) /\
    verify_signature B st d = Ret (Ok tt) /\
    st' = set_round1 st (BTreeMap.insert (r1_sender_ordinal d) d (received_round1_data st))
            (round st) /\
    BTreeMap.get (r1_sender_ordinal d) (received_round1_data st') = Some d /\
    (forall o, o <> r1_sender_ordinal d ->
               BTreeMap.get o (received_round1_data st') = BTreeMap.get o (received_round1_data st)).
Proof.
  intros B st d st' u H. unfold receive_round1data in H.
  destruct (round_gt (round st) Two) eqn:E1; [discriminate |].
  destruct (BTreeMap.contains_key _ _) eqn:E2; [discriminate |].
  destruct (check_sending_participant_id B st _ _) as [[] | e] eqn:E3; [| discriminate].
  destruct (r1_feldman_commitments d) as [| c0 rest] eqn:E4; [discriminate |].
  destruct (negb (Nat.eqb _ _)) eqn:E5; [discriminate |].
  destruct (existsb _ rest) eqn:E6; [discriminate |].
  destruct (negb (check_feldman_verifier _ _ _)) eqn:E7; [discriminate |].
  destruct (verify_signature B st d) as [[[] | e] |] eqn:E8; cbn [obind] in H; try discriminate.
  inversion H; subst; clear H.
  apply negb_false_iff, Nat.eqb_eq in E5. apply negb_false_iff in E7.
  repeat split; try reflexivity; try assumption.
  - exists c0, rest. auto.
  - apply btree_get_insert_eq.
  - intros o Ho. apply btree_get_insert_neq. congruence.
Qed.

Lemma receive_round1data_accepts_checked_witness :
  exists st' u,
    receive_round1data Toy.backend secret_second_r1 secret_first_payload
      = Ret (st', Ok u) /\
    round_gt (round secret_second_r1) Two = false /\
    BTreeMap.contains_key (r1_sender_ordinal secret_first_payload)
      (received_round1_data secret_second_r1) = false /\
    check_sending_participant_id Toy.backend secret_second_r1
      (r1_sender_ordinal secret_first_payload)
      (r1_sender_id secret_first_payload) = Ok tt /\
    length (r1_feldman_commitments secret_first_payload)
      = threshold secret_second_r1 /\
    (exists c0 rest, r1_feldman_commitments secret_first_payload = c0 :: rest /\
                     existsb (gis_identity Toy.backend) rest = false /\
                     check_feldman_verifier Toy.backend
                       (r1_sender_type secret_first_payload) c0 = true) /\
    verify_signature Toy.backend secret_second_r1 secret_first_payload
      = Ret (Ok tt) /\
    st' = set_round1 secret_second_r1
            (BTreeMap.insert (r1_sender_ordinal secret_first_payload)
               secret_first_payload (received_round1_data secret_second_r1))
            (round secret_second_r1) /\
    BTreeMap.get (r1_sender_ordinal secret_first_payload) (received_round1_data st')
      = Some secret_first_payload /\
    (forall o, o <> r1_sender_ordinal secret_first_payload ->
               BTreeMap.get o (received_round1_data st')
               = BTreeMap.get o (received_round1_data secret_second_r1)).
Proof.
  do 2 eexists. split; [vm_compute; reflexivity |].
  eapply (receive_round1data_accepts_checked Toy.backend secret_second_r1
            secret_first_payload). vm_compute. reflexivity.
Defined.

Lemma bytes_eqb_true (a b : list Byte.byte) : bytes_eqb a b = true -> a = b.
Proof.
  revert b. induction a as [| x a IH]; intros [| y b] H; cbn in H; try discriminate;
    [reflexivity |].
  apply andb_true_iff in H. destruct H as [H1 H2].
  apply Byte.byte_dec_bl in H1. f_equal; [exact H1 | apply IH, H2].
Qed.

Lemma gis_identity_gsub (B : Backend) (a b : Z) :
  gis_identity B (gsub B a b) = true <-> cong (order B) a b.
Proof.
  unfold gis_identity, gsub. rewrite Z.eqb_eq, mod_mod_any, cong_sub_zero. reflexivity.
Qed.

(** A Round-2 payload is accepted only after every check of
    [receive_round2data] passed: the round is at most Three, the sender is
    known with a matching, nonzero id that is not ours, it is in
    [valid_participant_ids] and has not sent Round-2 data yet, the
    participant holds its own Round-2 record and the payload's transcript
    hash equals it, the sender's Round-1 record is held, and
    [H·value = Σ_j powers_of_i[j]·C_j] over that record's commitments.
    Accepting it records it under its ordinal and changes nothing else. *)
Theorem receive_round2data_accepts_checked :
  forall (B : Backend) (st : Participant) (d : Round2Data) (st' : Participant) (u : unit),
    receive_round2data B st d = Ret (st', Ok u) ->
    round_gt (round st) Three = false /\
    check_sending_participant_id B st (r2_sender_ordinal d) (r2_sender_id d) = Ok tt /\
    BTreeMap.contains_key (r2_sender_ordinal d) (valid_participant_ids st) = true /\
    BTreeMap.contains_key (r2_sender_ordinal d) (received_round2_data st) = false /\
    (exists self_data r1d,
        BTreeMap.get (ordinal st) (received_round2_data st) = Some self_data /\
        r2_transcript_hash d = r2_transcript_hash self_data /\
        BTreeMap.get (r2_sender_ordinal d) (received_round1_data st) = Some r1d /\
        cong (order B) (gmul B (message_generator st) (value (r2_secret_share d)))
          (sum_of_products B (combine (powers_of_i st) (r1_feldman_commitments r1d)))) /\
    st' = set_round2 st (BTreeMap.insert (r2_sender_ordinal d) d (received_round2_data st))
            (round st) /\
    BTreeMap.get (r2_sender_ordinal d) (received_round2_data st') = Some d /\
    (forall o, o <> r2_sender_ordinal d ->
               BTreeMap.get o (received_round2_data st') = BTreeMap.get o (received_round2_data st)).
Proof.
  intros B st d st' u H. unfold receive_round2data in H.
  destruct (round_gt (round st) Three) eqn:E1; [discriminate |].
  destruct (check_sending_participant_id B st _ _) as [[] | e] eqn:E2; [| discriminate].
  destruct (negb (BTreeMap.contains_key _ (valid_participant_ids st))) eqn:E3; [discriminate |].
  destruct (BTreeMap.contains_key _ (received_round2_data st)) eqn:E4; [discriminate |].
  destruct (BTreeMap.get (ordinal st) _) as [self_data |] eqn:E5; [| discriminate].
  destruct (negb (bytes_eqb _ _)) eqn:E6; [discriminate |].
  destruct (BTreeMap.get _ (received_round1_data st)) as [r1d |] eqn:E7; [| discriminate].
  destruct (negb (gis_identity _ _)) eqn:E8; [discriminate |].
  inversion H; subst; clear H.
  apply negb_false_iff in E3, E6, E8. apply bytes_eqb_true in E6.
  apply gis_identity_gsub in E8.
  repeat split; try reflexivity; try assumption.
  - exists self_data, r1d. auto.
  - apply btree_get_insert_eq.
  - intros o Ho. apply btree_get_insert_neq. congruence.
Qed.

Lemma receive_round2data_accepts_checked_witness :
  exists st' u,
    receive_round2data Toy.backend round2_receiver_state round2_payload_from_second
      = Ret (st', Ok u) /\
    round_gt (round round2_receiver_state) Three = false /\
    check_sending_participant_id Toy.backend round2_receiver_state
      (r2_sender_ordinal round2_payload_from_second)
      (r2_sender_id round2_payload_from_second) = Ok tt /\
    BTreeMap.contains_key (r2_sender_ordinal round2_payload_from_second)
      (valid_participant_ids round2_receiver_state) = true /\
    BTreeMap.contains_key (r2_sender_ordinal round2_payload_from_second)
      (received_round2_data round2_receiver_state) = false /\
    (exists self_data r1d,
        BTreeMap.get (ordinal round2_receiver_state) (received_round2_data round2_receiver_state)
          = Some self_data /\
        r2_transcript_hash round2_payload_from_second = r2_transcript_hash self_data /\
        BTreeMap.get (r2_sender_ordinal round2_payload_from_second)
          (received_round1_data round2_receiver_state) = Some r1d /\
        cong (order Toy.backend)
          (gmul Toy.backend (message_generator round2_receiver_state)
             (value (r2_secret_share round2_payload_from_second)))
          (sum_of_products Toy.backend
             (combine (powers_of_i round2_receiver_state) (r1_feldman_commitments r1d)))) /\
    st' = set_round2 round2_receiver_state
            (BTreeMap.insert (r2_sender_ordinal round2_payload_from_second)
               round2_payload_from_second (received_round2_data round2_receiver_state))
            (round round2_receiver_state) /\
    BTreeMap.get (r2_sender_ordinal round2_payload_from_second) (received_round2_data st')
      = Some round2_payload_from_second /\
    (forall o, o <> r2_sender_ordinal round2_payload_from_second ->
               BTreeMap.get o (received_round2_data st')
               = BTreeMap.get o (received_round2_data round2_receiver_state)).
Proof.
  do 2 eexists. split; [vm_compute; reflexivity |].
  eapply (receive_round2data_accepts_checked Toy.backend round2_receiver_state
            round2_payload_from_second). vm_compute. reflexivity.
Defined.

(** *** [RoundOutputGenerator::iter] for Round 2 *)

(** Collecting the Round-2 outputs panics exactly when some participant other
    than the sender has no share at its ordinal (the [BTreeMap] index; the
    [debug_assert_eq!] on the share's identifier is compiled out of release
    builds). *)
Theorem iter_round2_panic_iff :
  forall (g : Round2OutputGenerator),
    iter (Round2Out g) = Panic <->
    exists index id, In (index, id) (r2o_participant_ids g) /\
                     index <> r2o_sender_ordinal g /\ round2_bad_target g index.
Proof.
  intros g. cbn [iter]. unfold round2_bad_target.
  induction (r2o_participant_ids g) as [| [index id] ids IH]; cbn [fold_right].
  - split; [discriminate | intros (? & ? & [] & _)].
  - destruct (Nat.eqb index (r2o_sender_ordinal g)) eqn:E.
    + apply Nat.eqb_eq in E. rewrite IH. split.
      * intros (i & j & Hin & Hne & Hb). exists i, j. auto with datatypes.
      * intros (i & j & [Heq | Hin] & Hne & Hb); [inversion Heq; subst; contradiction |].
        exists i, j. auto.
    + apply Nat.eqb_neq in E. unfold round2_output, BTreeMap.index.
      destruct (BTreeMap.get index (r2o_secret_shares g)) as [share |] eqn:G;
        cbn [obind].
      * destruct (fold_right _ _ ids) as [l |] eqn:R; cbn [obind].
        -- split; [discriminate |].
           intros (i & j & [Heq | Hin] & Hne & Hb).
           ++ inversion Heq; subst. rewrite G in Hb. discriminate.
           ++ assert (Ret l = Panic) as C by (apply IH; exists i, j; auto).
              discriminate.
        -- split; [intros _ | reflexivity].
           destruct (proj1 IH eq_refl) as (i & j & Hin & Hne & Hb).
           exists i, j. auto with datatypes.
      * split; [intros _ | reflexivity]. exists index, id. auto with datatypes.
Qed.

(** When collecting the Round-2 outputs returns, it sends one message to
    each participant other than the sender, in the order of
    [participant_ids], each carrying the share held at the recipient's
    ordinal and the sender's transcript hash. *)
Theorem iter_round2_outputs :
  forall (g : Round2OutputGenerator) (outs : list ParticipantRoundOutput),
    iter (Round2Out g) = Ret outs ->
    map (fun o => (dst_ordinal o, dst_id o)) outs
      = filter (fun '(index, _) => negb (Nat.eqb index (r2o_sender_ordinal g)))
          (r2o_participant_ids g) /\
    Forall (fun o => exists share,
                BTreeMap.get (dst_ordinal o) (r2o_secret_shares g) = Some share /\
                data o = Payload2 (mkRound2Data (r2o_sender_ordinal g) (r2o_sender_id g)
                                     (r2o_sender_type g) share (r2o_transcript_hash g)))
      outs.
Proof.
  intros g. cbn [iter].
  induction (r2o_participant_ids g) as [| [index id] ids IH]; intros outs H;
    cbn [fold_right] in H.
  - inversion H; subst. split; [reflexivity | constructor].
  - cbn [filter]. destruct (Nat.eqb index (r2o_sender_ordinal g)) eqn:E.
    + apply IH, H.
    + unfold round2_output, BTreeMap.index in H.
      destruct (BTreeMap.get index (r2o_secret_shares g)) as [share |] eqn:G;
        cbn [obind] in H; [| discriminate].
      destruct (fold_right _ _ ids) as [l |] eqn:R; cbn [obind] in H; [| discriminate].
      inversion H; subst; clear H. destruct (IH l eq_refl) as [Hm Hf].
      cbn [map negb]. split; [f_equal; exact Hm |].
      constructor; [| exact Hf]. exists share. cbn. auto.
Qed.

Lemma iter_round2_outputs_witness :
  exists outs,
    iter (Round2Out round2_generator_example) = Ret outs /\
    map (fun o => (dst_ordinal o, dst_id o)) outs
      = filter (fun '(index, _) =>
                  negb (Nat.eqb index (r2o_sender_ordinal round2_generator_example)))
          (r2o_participant_ids round2_generator_example) /\
    Forall (fun o => exists share,
                BTreeMap.get (dst_ordinal o) (r2o_secret_shares round2_generator_example)
                  = Some share /\
                data o = Payload2 (mkRound2Data (r2o_sender_ordinal round2_generator_example)
                                     (r2o_sender_id round2_generator_example)
                                     (r2o_sender_type round2_generator_example) share
                                     (r2o_transcript_hash round2_generator_example)))
      outs.
Proof.
  eexists. split; [vm_compute; reflexivity |].
  apply (iter_round2_outputs round2_generator_example). vm_compute. reflexivity.
Defined.

(** *** [round3] *)

Lemma round3_fold_all_refresh :
  forall B st l a X Y ar pk v,
    fold_left (round3_step B st) l (Ret (a, X, Y)) = Ret (ar, pk, v) ->
    ar = a && forallb (fun '(o, _) =>
                         match BTreeMap.get o (received_round1_data st) with
                         | Some d => match r1_sender_type d with Refresh => true | Secret => false end
                         | None => false
                         end) l.
Proof.
  intros B st l. induction l as [| [o d] l IH]; intros a X Y ar pk v H.
  - cbn in H. inversion H. rewrite andb_true_r. reflexivity.
  - cbn [fold_left] in H. unfold round3_step at 2 in H. cbn [obind] in H.
    unfold BTreeMap.index in H.
    destruct (BTreeMap.get o (received_round1_data st)) as [r1 |] eqn:Hget;
      cbn [obind] in H; [| rewrite round3_fold_panic in H; discriminate].
    destruct (r1_feldman_commitments r1) as [| c0 rest] eqn:Hcs;
      cbn [vec_get nth_error obind] in H; [rewrite round3_fold_panic in H; discriminate |].
    apply IH in H. rewrite H. cbn [forallb]. rewrite Hget, andb_assoc. reflexivity.
Qed.

(** When [round3] succeeds, round 3 was ready, the resulting public key is
    the identity exactly when every participant whose Round-2 share was
    summed is a [Refresh] participant, and the new secret share differs (in
    the field) from the participant's own original share. *)
Theorem round3_success_checks :
  forall (B : Backend) (st st' : Participant) (g : RoundOutputGenerator),
    round3 B st = Ret (st', Ok g) ->
    round3_ready st = true /\
    gis_identity B (public_key st') = contributors_all_refresh st /\
    exists og, BTreeMap.get (ordinal st) (secret_shares st) = Some og /\
               feq B (value (secret_share st')) (value og) = false.
Proof.
  intros B st st' g H. unfold round3 in H.
  destruct (round3_ready st) eqn:Rd; cbn [negb] in H; [| discriminate].
  unfold BTreeMap.index in H.
  destruct (BTreeMap.get (ordinal st) (secret_shares st)) as [og |] eqn:Og;
    cbn [obind] in H; [| discriminate].
  destruct (round3_loop B st) as [[[ar pk] v] |] eqn:Hloop; cbn [obind] in H; [| discriminate].
  unfold round3_loop in Hloop. apply round3_fold_all_refresh in Hloop. cbn [andb] in Hloop.
  destruct ((ar && negb (gis_identity B pk)) || (negb ar && gis_identity B pk)) eqn:Pk;
    [discriminate |].
  destruct (feq B v (value og)) eqn:Fv; inversion H; subst; clear H.
  split; [reflexivity |]. split.
  - cbn. unfold contributors_all_refresh.
    destruct (forallb _ _), (gis_identity B pk); cbn in Pk; congruence.
  - exists og. split; [reflexivity | exact Fv].
Qed.

Lemma round3_success_checks_witness :
  exists st' g,
    round3 Toy.backend round3_state = Ret (st', Ok g) /\
    round3_ready round3_state = true /\
    gis_identity Toy.backend (public_key st') = contributors_all_refresh round3_state /\
    exists og, BTreeMap.get (ordinal round3_state) (secret_shares round3_state) = Some og /\
               feq Toy.backend (value (secret_share st')) (value og) = false.
Proof.
  do 2 eexists. split; [reflexivity |].
  eapply (round3_success_checks Toy.backend round3_state). reflexivity.
Defined.

Lemma round3_fold_bad_entry :
  forall B st l o d acc,
    In (o, d) l ->
    (forall r1, BTreeMap.get o (received_round1_data st) = Some r1 ->
                r1_feldman_commitments r1 = []) ->
    fold_left (round3_step B st) l acc = Panic.
Proof.
  intros B st l. induction l as [| [o' d'] l IH]; intros o d acc Hin Hbad; [destruct Hin |].
  cbn [fold_left]. destruct Hin as [Heq | Hin].
  - inversion Heq; subst. unfold round3_step at 2.
    destruct acc as [[[a X] Y] |]; cbn [obind]; [| apply round3_fold_panic].
    unfold BTreeMap.index.
    destruct (BTreeMap.get o (received_round1_data st)) as [r1 |] eqn:Hget;
      cbn [obind]; [| apply round3_fold_panic].
    rewrite (Hbad r1 eq_refl). apply round3_fold_panic.
  - eapply IH; eassumption.
Qed.

(** [round3] panics when round 3 is ready and the participant's own ordinal
    is among the summed Round-2 entries while its own Round-1 record has no
    commitments, which is how [round1] stores it ([feldman_commitments:
    Vec::new()]): the loop reads [feldman_commitments[0]] of every summed
    ordinal. *)
Theorem round3_own_record_panics :
  forall (B : Backend) (st : Participant) (d1 : Round1Data),
    round3_ready st = true ->
    BTreeMap.get (ordinal st) (received_round1_data st) = Some d1 ->
    r1_feldman_commitments d1 = [] ->
    BTreeMap.contains_key (ordinal st) (received_round2_data st) = true ->
    round3 B st = Panic.
Proof.
  intros B st d1 Rd G1 C1 K2. unfold round3. rewrite Rd. cbn [negb].
  destruct (BTreeMap.index (secret_shares st) (ordinal st)) as [og |]; cbn [obind];
    [| reflexivity].
  unfold BTreeMap.contains_key in K2.
  destruct (BTreeMap.get (ordinal st) (received_round2_data st)) as [d2 |] eqn:G2;
    [| discriminate].
  assert (Hin : In (ordinal st, d2) (received_round2_data st)).
  { clear -G2. induction (received_round2_data st) as [| [k v] m IH]; [discriminate |].
    cbn in G2. destruct (Nat.eqb (ordinal st) k) eqn:E.
    - apply Nat.eqb_eq in E. inversion G2; subst. left. reflexivity.
    - right. apply IH, G2. }
  unfold round3_loop. rewrite (round3_fold_bad_entry B st _ (ordinal st) d2 _ Hin).
  - reflexivity.
  - intros r1 H. rewrite G1 in H. inversion H; subst. exact C1.
Qed.

Lemma round3_own_record_panics_witness :
  exists d1,
    round3_ready round3_state_own_record = true /\
    BTreeMap.get (ordinal round3_state_own_record)
      (received_round1_data round3_state_own_record) = Some d1 /\
    r1_feldman_commitments d1 = [] /\
    BTreeMap.contains_key (ordinal round3_state_own_record)
      (received_round2_data round3_state_own_record) = true /\
    round3 Toy.backend round3_state_own_record = Panic.
Proof.
  eexists. split; [reflexivity |]. split; [reflexivity |].
  split; [reflexivity |]. split; [reflexivity |].
  eapply round3_own_record_panics; reflexivity.
Defined.

(** *** [Participant::initialize] *)

Lemma enumerate_map_get {A V} (f : A -> V) (l : list A) (o : nat) :
  BTreeMap.get o (enumerate_map f l) = option_map f (nth_error l o).
Proof.
  unfold enumerate_map. assert (Hgen : forall k, BTreeMap.get (k + o)
    (combine (seq k (length l)) (map f l)) = option_map f (nth_error l o)).
  { revert o. induction l as [| a l IH]; intros o k.
    - destruct o; reflexivity.
    - cbn [length seq map combine BTreeMap.get]. destruct o as [| o].
      + rewrite Nat.add_0_r, Nat.eqb_refl. reflexivity.
      + destruct (Nat.eqb_spec (k + S o) k); [lia |].
        replace (k + S o)%nat with (S k + o)%nat by lia. apply IH. }
  exact (Hgen 0%nat).
Qed.

Lemma enumerate_map_keys {A V} (f : A -> V) (l : list A) :
  BTreeMap.keys (enumerate_map f l) = seq 0 (length l).
Proof.
  unfold enumerate_map, BTreeMap.keys. generalize 0%nat.
  induction l as [| a l IH]; intros k; [reflexivity |].
  cbn. f_equal. apply IH.
Qed.

Lemma position_of_found B i shares k :
  position_of B i shares = Some k ->
  exists s, nth_error shares k = Some s /\ feq B (identifier s) i = true.
Proof.
  revert k. induction shares as [| s shares IH]; intros k H; [discriminate |].
  cbn in H. destruct (feq B (identifier s) i) eqn:F.
  - inversion H; subst. exists s. auto.
  - destruct (position_of B i shares) as [k' |]; [| discriminate].
    inversion H; subst. apply IH. reflexivity.
Qed.

(** A participant that [initialize] returns starts in round One, not
    completed, with no received data and no valid participant ids, with the
    given id and type, [2 <= threshold <= limit] as given, a message
    generator that is not the identity, the identity as public key and the
    default secret share.  Its [secret_shares] and [all_participant_ids]
    are keyed [0 .. n-1] and agree on identifiers, the share at its own
    ordinal carries its id, its Feldman verifiers passed the checks, and
    [powers_of_i] is what [compute_powers_of_i] gives for its id. *)
Theorem initialize_output_shape :
  forall (B : Backend) (i : Z) (params : Parameters) (secret : Z) (ty : ParticipantType)
         (st : Participant),
    initialize B i params secret ty = Ret (Ok st) ->
    round st = One /\ completed st = false /\
    received_round1_data st = [] /\ received_round2_data st = [] /\
    valid_participant_ids st = [] /\
    id st = i /\ participant_impl st = ty /\
    threshold st = p_threshold params /\ limit st = p_limit params /\
    (2 <= threshold st <= limit st)%nat /\
    message_generator st = p_message_generator params /\
    gis_identity B (message_generator st) = false /\
    public_key st = gidentity /\ secret_share st = default_share /\
    BTreeMap.keys (all_participant_ids st) = seq 0 (length (all_participant_ids st)) /\
    BTreeMap.keys (secret_shares st) = BTreeMap.keys (all_participant_ids st) /\
    (forall o, BTreeMap.get o (all_participant_ids st)
               = option_map identifier (BTreeMap.get o (secret_shares st))) /\
    (exists s, BTreeMap.get (ordinal st) (secret_shares st) = Some s /\
               feq B (identifier s) i = true) /\
    (exists v0 rest, feldman_verifiers st = v0 :: rest /\
                     existsb (gis_identity B) rest = false /\
                     check_feldman_verifier B ty v0 = true) /\
    compute_powers_of_i B i (threshold st) = Ret (powers_of_i st).
Proof.
  intros B i params secret ty st H. unfold initialize in H.
  destruct (Nat.ltb_spec (p_limit params) (p_threshold params)) as [Hlt | Hle];
    [discriminate |].
  destruct (Nat.ltb_spec (p_threshold params) 1) as [Hlt1 | Hge1]; [discriminate |].
  destruct (gis_identity B (p_message_generator params)) eqn:Hh; [discriminate |].
  destruct (compute_powers_of_i B i (p_threshold params)) as [pw |] eqn:Hpw;
    cbn [obind] in H; [| discriminate].
  assert (Ht2 : (2 <= p_threshold params)%nat).
  { destruct (p_threshold params) as [| [| t]] eqn:Et; [lia | | lia].
    cbn in Hpw. discriminate. }
  destruct (split_secret B _ _ _ _ _) as [[shares verifiers] | e]; [| discriminate].
  unfold invalid_verifiers in H.
  destruct (existsb (gis_identity B) (tl verifiers)) eqn:Hx; cbn [obind] in H;
    [discriminate |].
  destruct verifiers as [| v0 rest]; cbn [vec_get nth_error obind] in H; [discriminate |].
  destruct (negb (check_feldman_verifier B ty v0)) eqn:Hc; [discriminate |].
  destruct (position_of B i shares) as [k |] eqn:Hpos; [| discriminate].
  inversion H; subst; clear H. cbn [round completed received_round1_data
    received_round2_data valid_participant_ids id participant_impl threshold limit
    message_generator public_key secret_share all_participant_ids secret_shares
    feldman_verifiers powers_of_i ordinal].
  apply negb_false_iff in Hc.
  destruct (position_of_found B i shares k Hpos) as (s & Hs & Fs).
  repeat split; try reflexivity; try assumption; try lia.
  - rewrite enumerate_map_keys. unfold enumerate_map.
    rewrite length_combine, length_seq, length_map, Nat.min_id. reflexivity.
  - rewrite !enumerate_map_keys. reflexivity.
  - intros o. rewrite !enumerate_map_get. destruct (nth_error shares o); reflexivity.
  - exists s. rewrite enumerate_map_get, Hs. auto.
  - exists v0, rest. auto.
Qed.

Lemma initialize_output_shape_witness :
  initialize Toy.backend 1 (Toy.params 2 2) (random_value Toy.backend Secret 4) Secret
    = Ret (Ok secret_first) /\
    round secret_first = One /\ completed secret_first = false /\
    received_round1_data secret_first = [] /\ received_round2_data secret_first = [] /\
    valid_participant_ids secret_first = [] /\
    id secret_first = 1 /\ participant_impl secret_first = Secret /\
    threshold secret_first = p_threshold (Toy.params 2 2) /\ limit secret_first = p_limit (Toy.params 2 2) /\
    (2 <= threshold secret_first <= limit secret_first)%nat /\
    message_generator secret_first = p_message_generator (Toy.params 2 2) /\
    gis_identity Toy.backend (message_generator secret_first) = false /\
    public_key secret_first = gidentity /\ secret_share secret_first = default_share /\
    BTreeMap.keys (all_participant_ids secret_first) = seq 0 (length (all_participant_ids secret_first)) /\
    BTreeMap.keys (secret_shares secret_first) = BTreeMap.keys (all_participant_ids secret_first) /\
    (forall o, BTreeMap.get o (all_participant_ids secret_first)
               = option_map identifier (BTreeMap.get o (secret_shares secret_first))) /\
    (exists s, BTreeMap.get (ordinal secret_first) (secret_shares secret_first) = Some s /\
               feq Toy.backend (identifier s) 1 = true) /\
    (exists v0 rest, feldman_verifiers secret_first = v0 :: rest /\
                     existsb (gis_identity Toy.backend) rest = false /\
                     check_feldman_verifier Toy.backend Secret v0 = true) /\
    compute_powers_of_i Toy.backend 1 (threshold secret_first) = Ret (powers_of_i secret_first).
Proof.
  assert (H : initialize Toy.backend 1 (Toy.params 2 2) (random_value Toy.backend Secret 4)
                Secret = Ret (Ok secret_first)) by (vm_compute; reflexivity).
  split; [exact H |].
  exact (initialize_output_shape Toy.backend 1 (Toy.params 2 2)
           (random_value Toy.backend Secret 4) Secret secret_first H).
Defined.

(** *** States reachable through the public interface *)

Lemma receive_round1data_state :
  forall B st d st' r,
    receive_round1data B st d = Ret (st', r) ->
    st' = st \/ exists m, st' = set_round1 st m (round st).
Proof.
  intros B st d st' r H. unfold receive_round1data in H.
  destruct (round_gt (round st) Two); [inversion H; auto |].
  destruct (BTreeMap.contains_key _ _); [inversion H; auto |].
  destruct (check_sending_participant_id B st _ _); [| inversion H; auto].
  destruct (r1_feldman_commitments d) as [| c0 rest]; [inversion H; auto |].
  destruct (negb (Nat.eqb _ _)); [inversion H; auto |].
  destruct (existsb _ rest); [inversion H; auto |].
  destruct (negb (check_feldman_verifier _ _ _)); [inversion H; auto |].
  destruct (verify_signature B st d) as [[[] | e] |]; cbn [obind] in H;
    [| inversion H; auto | discriminate].
  inversion H. right. eexists. reflexivity.
Qed.

Lemma receive_round2data_no_valid_ids :
  forall B st d st' r,
    valid_participant_ids st = [] ->
    receive_round2data B st d = Ret (st', r) -> st' = st.
Proof.
  intros B st d st' r Hv H. unfold receive_round2data in H. rewrite Hv in H.
  destruct (round_gt (round st) Three); [inversion H; auto |].
  destruct (check_sending_participant_id B st _ _); inversion H; auto.
Qed.

Lemma never_completes_inv_initialize :
  forall B i params secret ty st,
    initialize B i params secret ty = Ret (Ok st) -> never_completes_inv st.
Proof.
  intros B i params secret ty st H. unfold initialize in H.
  destruct (Nat.ltb (p_limit params) (p_threshold params)); [discriminate |].
  destruct (Nat.ltb_spec (p_threshold params) 1) as [Hlt1 | Hge1]; [discriminate |].
  destruct (gis_identity B (p_message_generator params)); [discriminate |].
  destruct (compute_powers_of_i B i (p_threshold params)) as [pw |] eqn:Hpw;
    cbn [obind] in H; [| discriminate].
  assert (Ht2 : (2 <= p_threshold params)%nat).
  { destruct (p_threshold params) as [| [| t]] eqn:Et; [lia | | lia].
    cbn in Hpw. discriminate. }
  destruct (split_secret B _ _ _ _ _) as [[shares verifiers] | e]; [| discriminate].
  destruct (invalid_verifiers B ty verifiers) as [[] |]; cbn [obind] in H; try discriminate.
  destruct (position_of B i shares); [| discriminate].
  inversion H; subst. unfold never_completes_inv. cbn.
  repeat split; try discriminate; try lia.
Qed.

Lemma never_completes_inv_receive :
  forall B st bytes st' r,
    never_completes_inv st -> receive B st bytes = Ret (st', r) -> never_completes_inv st'.
Proof.
  intros B st bytes st' r Hi H. unfold receive in H.
  destruct (vec_get bytes 0) as [b0 |]; cbn [obind] in H; [| discriminate].
  destruct (round_try_from b0) as [[] | e]; try (inversion H; subst; exact Hi).
  - destruct (decode_round1 B _) as [d | e]; [| inversion H; subst; exact Hi].
    apply receive_round1data_state in H. destruct H as [-> | [m ->]]; [exact Hi |].
    exact Hi.
  - destruct (decode_round2 B _) as [d | e]; [| inversion H; subst; exact Hi].
    apply receive_round2data_no_valid_ids in H; [subst; exact Hi | apply Hi].
Qed.

Lemma never_completes_inv_run :
  forall B st rnd st' r,
    never_completes_inv st -> run B st rnd = Ret (st', r) -> never_completes_inv st'.
Proof.
  intros B st rnd st' r Hi H.
  destruct Hi as (Hv & Hc & Ht & Hr4 & Hr12 & Hlen). unfold run in H.
  destruct (round st) eqn:R.
  - inversion H; subst. unfold never_completes_inv. cbn.
    repeat split; try assumption; try discriminate.
    intros _. apply Hr12. auto.
  - unfold round2 in H. destruct (negb (round2_ready st)).
    + inversion H; subst. repeat split; try assumption; try (rewrite R; discriminate).
      intros _. apply Hr12. auto.
    + inversion H; subst. unfold never_completes_inv. cbn.
      rewrite (Hr12 (or_intror eq_refl)). cbn.
      repeat split; try assumption; try discriminate; try lia. intros [E | E]; discriminate.
  - unfold round3 in H. unfold round3_ready in H. rewrite R in H. cbn [round_eqb round_to_nat
      Nat.eqb andb] in H.
    destruct (Nat.leb_spec (threshold st) (BTreeMap.len (received_round2_data st))) as [Hle | _];
      [unfold BTreeMap.len in Hle; lia |].
    inversion H; subst. repeat split; try assumption; try (rewrite R; discriminate).
    rewrite R. intros [E | E]; discriminate.
  - contradiction.
Qed.

Lemma reachable_never_completes_inv :
  forall B st, reachable B st -> never_completes_inv st.
Proof.
  intros B st Hr. induction Hr.
  - eapply never_completes_inv_initialize; eassumption.
  - eapply never_completes_inv_run; eassumption.
  - eapply never_completes_inv_receive; eassumption.
Qed.

(** No participant obtained through the public interface ([new] or
    [with_secret], then any sequence of [run] and [receive] calls that
    return) ever completes: [valid_participant_ids] stays empty because
    [round2] only fills a local copy, so every Round-2 payload is refused,
    at most the participant's own Round-2 record is held, and round 3 is
    never ready.  Hence [get_secret_share] and [get_public_key] stay [None],
    [round] never reaches Four, and in round Three every [run] returns
    "Round 3 is not ready" without changing the state. *)
Theorem reachable_never_completes :
  forall (B : Backend) (st : Participant),
    reachable B st ->
    completed st = false /\ get_secret_share st = None /\ get_public_key st = None /\
    valid_participant_ids st = [] /\ round st <> Four /\
    (round st = Three ->
     forall rnd, run B st rnd = Ret (st, Err (RoundError "Round 3 is not ready"))).
Proof.
  intros B st Hr.
  destruct (reachable_never_completes_inv B st Hr) as (Hv & Hc & Ht & Hr4 & Hr12 & Hlen).
  unfold get_secret_share, get_public_key. rewrite Hc.
  repeat split; try assumption.
  intros R rnd. unfold run. rewrite R. unfold round3, round3_ready. rewrite R.
  cbn [round_eqb round_to_nat Nat.eqb andb].
  destruct (Nat.leb_spec (threshold st) (BTreeMap.len (received_round2_data st))) as [Hle | _];
    [unfold BTreeMap.len in Hle; lia | reflexivity].
Qed.

Lemma reachable_never_completes_witness :
  reachable Toy.backend secret_second_r1 /\
  completed secret_second_r1 = false /\
  get_secret_share secret_second_r1 = None /\
  get_public_key secret_second_r1 = None /\
  valid_participant_ids secret_second_r1 = [] /\
  round secret_second_r1 <> Four /\
  (round secret_second_r1 = Three ->
   forall rnd, run Toy.backend secret_second_r1 rnd
               = Ret (secret_second_r1, Err (RoundError "Round 3 is not ready"))).
Proof.
  assert (Hr : reachable Toy.backend secret_second_r1).
  { apply (reach_run Toy.backend
             (match Toy.make Secret 2 2 4 2 with Some st => st | None => round3_state end) 3
             secret_second_r1
             (snd (round1 Toy.backend
                     (match Toy.make Secret 2 2 4 2 with
                      | Some st => st | None => round3_state end) 3))).
    - apply (reach_initialize Toy.backend 2 (Toy.params 2 2)
               (random_value Toy.backend Secret 4) Secret).
      vm_compute. reflexivity.
    - vm_compute. reflexivity. }
  split; [exact Hr |].
  exact (reachable_never_completes Toy.backend secret_second_r1 Hr).
Defined.

(** *** [RoundOutputGenerator::iter] for Round 1 *)

(** Collecting the Round-1 outputs never panics: it sends one message to each
    participant other than the sender, in the order of [participant_ids], and
    every message carries the same payload, the sender's ordinal, id, type,
    Feldman commitments and signature. *)
Theorem iter_round1_outputs :
  forall (B : Backend) (g : Round1OutputGenerator),
    exists outs,
      iter (Round1Out g) = Ret outs /\
      map (fun o => (dst_ordinal o, dst_id o)) outs
        = filter (fun '(index, _) => negb (Nat.eqb index (r1o_sender_ordinal g)))
            (r1o_participant_ids g) /\
      Forall (fun o => data o = Payload1 (mkRound1Data (r1o_sender_ordinal g) (r1o_sender_id g)
                                          (r1o_sender_type g) (r1o_feldman_commitments g)
                                          (r1o_signature g)))
        outs.
Proof.
  intros B g. eexists. split; [reflexivity |]. cbn [iter].
  induction (r1o_participant_ids g) as [| [index id] ids [IHm IHf]]; [split; constructor |].
  cbn [flat_map filter]. destruct (Nat.eqb index (r1o_sender_ordinal g)); cbn.
  - split; assumption.
  - split; [f_equal; exact IHm | constructor; [reflexivity | exact IHf]].
Qed.

(** *** Round-1 signatures of a participant whose first verifier is the identity *)

(** The signature [round1] sends passes [verify_signature] at any peer that
    shares the public parameters the Schnorr bytes cover (threshold, limit,
    message generator, participant ids) when the sender's first Feldman
    verifier is the identity and its [secret_share] is still the default
    one, as it is until round 3. *)
Theorem round1_signature_verifies_identity_verifier :
  forall (B : Backend) (st st2 : Participant) (rnd : Z) (c0 : Z) (rest : list Z),
    feldman_verifiers st = c0 :: rest ->
    gis_identity B c0 = true ->
    secret_share st = default_share ->
    threshold st2 = threshold st -> limit st2 = limit st ->
    message_generator st2 = message_generator st ->
    all_participant_ids st2 = all_participant_ids st ->
    exists g,
      snd (round1 B st rnd) = Ok (Round1Out g) /\
      verify_signature B st2
        (mkRound1Data (r1o_sender_ordinal g) (r1o_sender_id g) (r1o_sender_type g)
           (r1o_feldman_commitments g) (r1o_signature g)) = Ret (Ok tt).
Proof.
  intros B st st2 rnd c0 rest Hv Hc0 Hs Ht Hl Hm Ha.
  eexists. split; [reflexivity |].
  unfold verify_signature, compute_signature. cbn [r1_feldman_commitments r1_signature
    r1_sender_ordinal r1_sender_id r1_sender_type sig_r sig_s r1o_sender_ordinal r1o_sender_id
    r1o_sender_type r1o_feldman_commitments r1o_signature].
  rewrite Hv. cbn [vec_get nth_error obind].
  assert (Hb : forall o i ty vs r,
             bytes_for_schnorr B st2 o i ty vs r = bytes_for_schnorr B st o i ty vs r).
  { intros. unfold bytes_for_schnorr. rewrite Ht, Hl, Hm, Ha. reflexivity. }
  rewrite Hb, <- Hv. rewrite Hs. cbn [value default_share].
  rewrite Hm.
  set (c := hash_to_scalar B _). set (k := random_value B _ rnd).
  unfold gis_identity in Hc0. apply Z.eqb_eq in Hc0.
  replace (geq B _ _) with true; [reflexivity |]. symmetry. apply geq_true_iff.
  unfold gmul, gsub, fadd, fmul.
  rewrite !cong_mod.
  assert (Hc0' : cong (order B) c0 0) by (unfold cong; rewrite Hc0; reflexivity).
  rewrite Hc0'. apply cong_ring. ring.
Qed.

Lemma round1_signature_verifies_identity_verifier_witness :
  feldman_verifiers identity_verifier_state = 0 :: [3] /\
  gis_identity Toy.backend 0 = true /\
  secret_share identity_verifier_state = default_share /\
  threshold secret_second_r1 = threshold identity_verifier_state /\
  limit secret_second_r1 = limit identity_verifier_state /\
  message_generator secret_second_r1 = message_generator identity_verifier_state /\
  all_participant_ids secret_second_r1 = all_participant_ids identity_verifier_state /\
  exists g,
    snd (round1 Toy.backend identity_verifier_state 0) = Ok (Round1Out g) /\
    verify_signature Toy.backend secret_second_r1
      (mkRound1Data (r1o_sender_ordinal g) (r1o_sender_id g) (r1o_sender_type g)
         (r1o_feldman_commitments g) (r1o_signature g)) = Ret (Ok tt).
Proof.
  assert (H1 : feldman_verifiers identity_verifier_state = 0 :: [3]) by (vm_compute; reflexivity).
  assert (H2 : secret_share identity_verifier_state = default_share) by (vm_compute; reflexivity).
  assert (H3 : threshold secret_second_r1 = threshold identity_verifier_state)
    by (vm_compute; reflexivity).
  assert (H4 : limit secret_second_r1 = limit identity_verifier_state)
    by (vm_compute; reflexivity).
  assert (H5 : message_generator secret_second_r1 = message_generator identity_verifier_state)
    by (vm_compute; reflexivity).
  assert (H6 : all_participant_ids secret_second_r1 = all_participant_ids identity_verifier_state)
    by (vm_compute; reflexivity).
  do 7 (split; [assumption || reflexivity |]).
  exact (round1_signature_verifies_identity_verifier Toy.backend identity_verifier_state
           secret_second_r1 0 0 [3] H1 eq_refl H2 H3 H4 H5 H6).
Defined.
